(** * Captcha bot: the challenge store, the generator and the handlers

    A shallow embedding of [db.py] and [bot.py].  The SQLite table
    [captchas] is a list of rows, the Python set of option strings is a
    [gset string], and every handler is a finite tree of awaited
    operations that is run against a table and a platform oracle. *)

From Stdlib Require Import ZArith Lia Ascii String.
From stdpp Require Import base decidable option list strings gmap sets pretty.

Set Warnings "-clear-no-such-hyp".

Local Open Scope Z_scope.
Local Open Scope string_scope.

(** ** db.py: the [captchas] table *)

Module Db.

(** One row of [captchas]; the columns in the order of CREATE TABLE. *)
Record Row := mkRow {
  chat_id : Z;
  user_id : Z;
  question : string;
  answer : string;
  created_at : Z;
  status : string
}.

Definition Table := list Row.

#[global] Instance Row_eq_dec : EqDecision Row.
Proof. solve_decision. Defined.

(** The WHERE clause [chat_id = ? AND user_id = ?]. *)
Definition matches (c u : Z) (r : Row) : bool :=
  bool_decide (chat_id r = c) && bool_decide (user_id r = u).

(** [CREATE TABLE IF NOT EXISTS]: an existing table is kept, a missing
    one is created empty. *)
Definition init_db (existing : option Table) : Table :=
  match existing with
  | Some t => t
  | None => []
  end.

(** [INSERT ... ON CONFLICT(chat_id, user_id) DO UPDATE SET ...]: the row
    in conflict takes the four excluded columns; without a conflict the
    new row is added. *)
Fixpoint upsert (new : Row) (t : Table) : Table :=
  match t with
  | [] => [new]
  | r :: t' =>
      if matches (chat_id new) (user_id new) r
      then mkRow (chat_id r) (user_id r)
                 (question new) (answer new) (created_at new) (status new) :: t'
      else r :: upsert new t'
  end.

(** [save_captcha]; [now] is the value of [int(time.time())]. *)
Definition save_captcha (c u : Z) (q a : string) (st : string) (now : Z)
    (t : Table) : Table :=
  upsert (mkRow c u q a now st) t.

(** The default of the keyword argument [status]. *)
Definition default_status : string := "pending".

Definition save_captcha_default (c u : Z) (q a : string) (now : Z)
    (t : Table) : Table :=
  save_captcha c u q a default_status now t.

(** [get_captcha]: [fetchone] of the SELECT, [None] when no row matches. *)
Definition get_captcha (c u : Z) (t : Table) : option Row :=
  List.find (matches c u) t.

Definition set_status (st : string) (r : Row) : Row :=
  mkRow (chat_id r) (user_id r) (question r) (answer r) (created_at r) st.

(** [update_status]: [UPDATE captchas SET status = ? WHERE ...]. *)
Definition update_status (c u : Z) (st : string) (t : Table) : Table :=
  List.map (fun r => if matches c u r then set_status st r else r) t.

(** [delete_captcha]: [DELETE FROM captchas WHERE ...]. *)
Definition delete_captcha (c u : Z) (t : Table) : Table :=
  List.filter (fun r => negb (matches c u r)) t.

(** The writing operations of the module, as data, to speak about
    sequences of calls. *)
Inductive op :=
| OpSave (c u : Z) (q a st : string) (now : Z)
| OpUpdateStatus (c u : Z) (st : string)
| OpDelete (c u : Z).

Definition apply_op (t : Table) (o : op) : Table :=
  match o with
  | OpSave c u q a st now => save_captcha c u q a st now t
  | OpUpdateStatus c u st => update_status c u st t
  | OpDelete c u => delete_captcha c u t
  end.

Definition run_ops (ops : list op) (t : Table) : Table :=
  List.fold_left apply_op ops t.

(** The rows stored under one key, and the rows under all other keys. *)
Definition rows_for (c u : Z) (t : Table) : list Row :=
  List.filter (matches c u) t.

Definition rows_except (c u : Z) (t : Table) : list Row :=
  List.filter (fun r => negb (matches c u r)) t.

(** The primary-key constraint. *)
Definition pk_ok (t : Table) : Prop :=
  forall c u, (length (rows_for c u t) <= 1)%nat.

(** The values an INTEGER column and a bound parameter take: signed 64
    bits.  With a parameter outside them sqlite3 raises OverflowError
    before the statement runs. *)
Definition storable (z : Z) : Prop := - 2 ^ 63 <= z < 2 ^ 63.

End Db.

(** ** bot.py: the challenge generator *)

Module Gen.

(** Python's [str] on an [int]: decimal digits, a leading minus. *)
Definition str (z : Z) : string := pretty z.

(** The entropy source: [randint i lo hi] is what the [i]-th call of the
    run, [random.randint(lo, hi)], returns, and [shuffle i l] is the
    order [random.shuffle] leaves [l] in. *)
Record Entropy := mkEntropy {
  randint : nat -> Z -> Z -> Z;
  shuffle : nat -> list string -> list string
}.

(** What the library promises of the source. *)
Definition entropy_ok (e : Entropy) : Prop :=
  (forall i lo hi, lo <= hi -> lo <= randint e i lo hi <= hi) /\
  (forall i l, shuffle e i l ≡ₚ l).

(** [while len(answers) < 4: answers.add(str(random.randint(2, 18)))],
    from the [i]-th draw on; [None] when the fuel runs out first. *)
Fixpoint collect (fuel : nat) (e : Entropy) (i : nat) (answers : gset string)
    : option (nat * gset string) :=
  if decide (size answers < 4)%nat then
    match fuel with
    | O => None
    | S fuel' =>
        let fake := randint e i 2 18 in
        collect fuel' e (S i) ({[ str fake ]} ∪ answers)
    end
  else Some (i, answers).

Definition question_of (a b : Z) : string :=
  str a ++ " + " ++ str b ++ " = ?".

(** [generate_captcha], started at draw [i]: the question, the correct
    answer, the options and the next draw. *)
Definition generate_captcha (fuel : nat) (e : Entropy) (i : nat)
    : option (string * string * list string * nat) :=
  let a := randint e i 1 9 in
  let b := randint e (S i) 1 9 in
  let correct := a + b in
  let question := question_of a b in
  match collect fuel e (S (S i)) {[ str correct ]} with
  | None => None
  | Some (j, answers) =>
      let options := shuffle e j (elements answers) in
      Some (question, str correct, options, S j)
  end.

(** The first [n] values drawn by the loop, and the distinct ones among
    them that differ from the correct value. *)
Definition draws (e : Entropy) (i n : nat) : list Z :=
  (fun k => randint e (i + k) 2 18) <$> seq 0 n.

Definition decoys (correct : Z) (l : list Z) : gset Z :=
  list_to_set l ∖ {[ correct ]}.

(** The set [answers] after [n] iterations started from [A]. *)
Definition answers_after (e : Entropy) (i : nat) (A : gset string) (n : nat)
    : gset string :=
  list_to_set (str <$> draws e i n) ∪ A.

End Gen.

(** ** bot.py: what the handlers consume *)

Module Py.

(** [s.split(":", maxsplit=n)]. *)
Fixpoint split_max (n : nat) (s : string) : list string :=
  match s with
  | EmptyString => [""]
  | String ch s' =>
      match n with
      | O => [s]
      | S n' =>
          if Ascii.eqb ch ":"%char then "" :: split_max n' s'
          else match split_max n s' with
               | hd :: tl => String ch hd :: tl
               | [] => [String ch ""]
               end
      end
  end.

(** The ASCII characters that [int] skips around a literal: tab, line
    feed, vertical tab, form feed, carriage return and space. *)
Definition is_space (a : ascii) : bool :=
  let n := nat_of_ascii a in
  ((9 <=? n)%nat && (n <=? 13)%nat) || (n =? 32)%nat.

Definition digit_val (a : ascii) : option Z :=
  let n := nat_of_ascii a in
  if ((48 <=? n)%nat && (n <=? 57)%nat) then Some (Z.of_nat (n - 48)) else None.

Fixpoint lstrip (s : string) : string :=
  match s with
  | EmptyString => EmptyString
  | String a s' => if is_space a then lstrip s' else s
  end.

Definition strip (s : string) : string :=
  String.rev (lstrip (String.rev (lstrip s))).

(** The digits of an integer literal: a digit first and last, single
    underscores only between digits. *)
Fixpoint digits (acc : Z) (after_digit : bool) (s : string) : option Z :=
  match s with
  | EmptyString => if after_digit then Some acc else None
  | String a s' =>
      match digit_val a with
      | Some d => digits (10 * acc + d) true s'
      | None =>
          if Ascii.eqb a "_"%char && after_digit then digits acc false s' else None
      end
  end.

(** [int(s)] on an ASCII string: [None] is [ValueError]. *)
Definition int (s : string) : option Z :=
  match strip s with
  | String "+"%char r => digits 0 false r
  | String "-"%char r => Z.opp <$> digits 0 false r
  | t => digits 0 false t
  end.

End Py.

(** ** bot.py: handlers as trees of awaited operations *)

Module Bot.

Record ChatPermissions := mkPerms {
  can_send_messages : bool;
  can_send_media_messages : bool;
  can_send_polls : bool;
  can_send_other_messages : bool;
  can_add_web_page_previews : bool;
  can_change_info : bool;
  can_invite_users : bool;
  can_pin_messages : bool
}.

(** One inline button: its text and its callback data. *)
Definition Button : Type := string * string.
Definition Keyboard : Type := list (list Button).

(** The requests sent to the chat platform. *)
Inductive call :=
| BanChatMember (chat user : Z)
| GetChatMember (chat user : Z)
| GetChat (chat : Z)
| RestrictChatMember (chat user : Z) (p : ChatPermissions)
| SendMessage (chat : Z) (text : string) (markup : option Keyboard)
| DeleteMessage
| CallbackAnswer (text : string) (show_alert : bool)
| EditReplyMarkup (markup : option Keyboard).

(** What a request gives back: a value, or an exception with its text. *)
Inductive value :=
| VNone
| VMember (mention : string)
| VChat (type : string).

Inductive reply :=
| Returned (v : value)
| Raised (e : string).

(** A coroutine: every constructor with a continuation is one [await]
    (or one synchronous effect); [Hang] is a generator loop that did not
    end within the fuel. *)
Inductive Prog :=
| Ret
| Raise (e : string)
| Hang
| Get (c u : Z) (k : option Db.Row -> Prog)
| Save (c u : Z) (q a st : string) (k : Prog)
| SetStatus (c u : Z) (st : string) (k : Prog)
| Api (c : call) (k : reply -> Prog)
| Generate (k : string * string * list string -> Prog)
| Spawn (c u timeout : Z) (k : Prog)
| Sleep (t : Z) (k : Prog).

(** [p] and then [q]. *)
Fixpoint seq (p q : Prog) : Prog :=
  match p with
  | Ret => q
  | Raise e => Raise e
  | Hang => Hang
  | Get c u k => Get c u (fun r => seq (k r) q)
  | Save c u qu a st k => Save c u qu a st (seq k q)
  | SetStatus c u st k => SetStatus c u st (seq k q)
  | Api c k => Api c (fun r => seq (k r) q)
  | Generate k => Generate (fun g => seq (k g) q)
  | Spawn c u t k => Spawn c u t (seq k q)
  | Sleep t k => Sleep t (seq k q)
  end.

(** [try: p except Exception as e: h e]. *)
Fixpoint catch (p : Prog) (h : string -> Prog) : Prog :=
  match p with
  | Ret => Ret
  | Raise e => h e
  | Hang => Hang
  | Get c u k => Get c u (fun r => catch (k r) h)
  | Save c u qu a st k => Save c u qu a st (catch k h)
  | SetStatus c u st k => SetStatus c u st (catch k h)
  | Api c k => Api c (fun r => catch (k r) h)
  | Generate k => Generate (fun g => catch (k g) h)
  | Spawn c u t k => Spawn c u t (catch k h)
  | Sleep t k => Sleep t (catch k h)
  end.

(** [await] of a request whose exception is not caught on the spot. *)
Definition await (c : call) (k : value -> Prog) : Prog :=
  Api c (fun r => match r with
                  | Returned v => k v
                  | Raised e => Raise e
                  end).

Definition await_ (c : call) : Prog := await c (fun _ => Ret).

(** *** The world a coroutine runs in *)

Record World := mkWorld {
  table : Db.Table;
  writes : list Db.op;              (* every write made, oldest first *)
  log : list (call * reply);        (* every request sent, oldest first *)
  spawned : list (Z * Z * Z);       (* tasks created: chat, user, timeout *)
  now : Z;                          (* int(time.time()) *)
  rng : nat                         (* draws made so far *)
}.

Record Env := mkEnv {
  platform : nat -> call -> reply;  (* the reply to the n-th request *)
  entropy : Gen.Entropy;
  fuel : nat
}.

Inductive Outcome :=
| Finished
| Uncaught (e : string)
| Diverged.

Definition do_write (o : Db.op) (w : World) : World :=
  mkWorld (Db.apply_op (table w) o) (writes w ++ [o]) (log w) (spawned w)
          (now w) (rng w).

Definition do_call (env : Env) (c : call) (w : World) : reply * World :=
  let r := platform env (length (log w)) c in
  (r, mkWorld (table w) (writes w) (log w ++ [(c, r)]) (spawned w)
              (now w) (rng w)).

Definition do_spawn (t : Z * Z * Z) (w : World) : World :=
  mkWorld (table w) (writes w) (log w) (spawned w ++ [t]) (now w) (rng w).

Definition do_sleep (t : Z) (w : World) : World :=
  mkWorld (table w) (writes w) (log w) (spawned w) (now w + t) (rng w).

Definition set_rng (j : nat) (w : World) : World :=
  mkWorld (table w) (writes w) (log w) (spawned w) (now w) j.

(** One coroutine run to its end without interruption. *)
Fixpoint run (env : Env) (p : Prog) (w : World) : Outcome * World :=
  match p with
  | Ret => (Finished, w)
  | Raise e => (Uncaught e, w)
  | Hang => (Diverged, w)
  | Get c u k => run env (k (Db.get_captcha c u (table w))) w
  | Save c u q a st k => run env k (do_write (Db.OpSave c u q a st (now w)) w)
  | SetStatus c u st k => run env k (do_write (Db.OpUpdateStatus c u st) w)
  | Api c k => let '(r, w') := do_call env c w in run env (k r) w'
  | Generate k =>
      match Gen.generate_captcha (fuel env) (entropy env) (rng w) with
      | None => (Diverged, w)
      | Some (q, a, options, j) => run env (k (q, a, options)) (set_rng j w)
      end
  | Spawn c u t k => run env k (do_spawn (c, u, t) w)
  | Sleep t k => run env k (do_sleep t w)
  end.

(** One step of a coroutine, up to its next suspension point. *)
Definition step (env : Env) (p : Prog) (w : World) : Prog * World :=
  match p with
  | Ret => (Ret, w)
  | Raise e => (Raise e, w)
  | Hang => (Hang, w)
  | Get c u k => (k (Db.get_captcha c u (table w)), w)
  | Save c u q a st k => (k, do_write (Db.OpSave c u q a st (now w)) w)
  | SetStatus c u st k => (k, do_write (Db.OpUpdateStatus c u st) w)
  | Api c k => let '(r, w') := do_call env c w in (k r, w')
  | Generate k =>
      match Gen.generate_captcha (fuel env) (entropy env) (rng w) with
      | None => (Hang, w)
      | Some (q, a, options, j) => (k (q, a, options), set_rng j w)
      end
  | Spawn c u t k => (k, do_spawn (c, u, t) w)
  | Sleep t k => (k, do_sleep t w)
  end.

(** The table, the history of writes and the tasks are where they were. *)
Definition same_state (w w' : World) : Prop :=
  table w' = table w /\ writes w' = writes w /\ spawned w' = spawned w.

(** The requests of a log, without their replies. *)
Definition calls (l : list (call * reply)) : list call := fst <$> l.

(** *** The handlers *)

Definition nl : string := String (ascii_of_nat 10) EmptyString.

(** [build_captcha_keyboard]; [adjust 2] puts two buttons in a row. *)
Fixpoint adjust2 (l : list Button) : Keyboard :=
  match l with
  | [] => []
  | [x] => [[x]]
  | x :: y :: r => [x; y] :: adjust2 r
  end.

Definition callback_data (chat_id user_id : Z) (answer : string) : string :=
  "captcha:" ++ Gen.str chat_id ++ ":" ++ Gen.str user_id ++ ":" ++ answer.

Definition build_captcha_keyboard (chat_id user_id : Z) (options : list string)
    : Keyboard :=
  adjust2 ((fun answer => (answer, callback_data chat_id user_id answer))
             <$> options).

Definition kicked_text (mention : string) : string :=
  mention ++ " не прошёл капчу за 60 секунд и был удалён из чата.".

Definition cannot_kick_text (user_id : Z) (e : string) : string :=
  "Не смог удалить пользователя с ID <code>" ++ Gen.str user_id
  ++ "</code> после таймаута капчи." ++ nl
  ++ "Причина от Telegram: <code>" ++ e ++ "</code>" ++ nl
  ++ "Чаще всего это значит, что пользователь — создатель/админ чата или у бота нет прав банить.".

(** The body of [kick_after_timeout] after its sleep. *)
Definition timeout_check (chat_id user_id : Z) : Prog :=
  Get chat_id user_id (fun row =>
    match row with
    | None => Ret
    | Some r =>
        if decide (Db.status r = "pending") then
          catch
            (await (BanChatMember chat_id user_id) (fun _ =>
             SetStatus chat_id user_id "kicked"
               (Api (GetChatMember chat_id user_id) (fun m =>
                  let mention :=
                    match m with
                    | Returned (VMember mention) => mention
                    | _ => Gen.str user_id
                    end in
                  await_ (SendMessage chat_id (kicked_text mention) None)))))
            (fun e =>
               catch
                 (await_ (SendMessage chat_id (cannot_kick_text user_id e) None))
                 (fun _ => Ret))
        else Ret
    end).

Definition kick_after_timeout (chat_id user_id timeout : Z) : Prog :=
  Sleep timeout (timeout_check chat_id user_id).

Record User := mkUser {
  id : Z;
  is_bot : bool;
  mention_html : string
}.

Definition restricted : ChatPermissions :=
  mkPerms false false false false false false false false.

Definition unrestricted : ChatPermissions :=
  mkPerms true true true true true false true false.

Definition prompt_text (mention question : string) : string :=
  "Добро пожаловать, " ++ mention ++ "!" ++ nl
  ++ "Пожалуйста, реши капчу за 60 секунд, иначе ты будешь удалён." ++ nl ++ nl
  ++ "<b>Вопрос:</b> " ++ question.

Definition start_captcha_flow (chat_id : Z) (chat_type : string) (user : User)
    : Prog :=
  let user_id := id user in
  Generate (fun '(question, correct_answer, options) =>
  Save chat_id user_id question correct_answer "pending"
    (seq
       (if decide (chat_type = "supergroup") then
          catch (await_ (RestrictChatMember chat_id user_id restricted))
                (fun _ => Ret)
        else Ret)
    (seq
       (catch
          (await_ (SendMessage chat_id
                     (prompt_text (mention_html user) question)
                     (Some (build_captcha_keyboard chat_id user_id options))))
          (fun _ => Ret))
       (Spawn chat_id user_id 60 Ret)))).

Record Message := mkMessage {
  m_chat_id : Z;
  m_chat_type : string;
  from_user : option User;
  new_chat_members : list User
}.

Definition on_user_join (message : Message) : Prog :=
  foldr
    (fun user rest =>
       if is_bot user then rest
       else seq (start_captcha_flow (m_chat_id message) (m_chat_type message) user)
                rest)
    Ret (new_chat_members message).

(** The filter of [on_any_message]. *)
Definition on_any_message_filter (message : Message) : bool :=
  (bool_decide (m_chat_type message = "group")
   || bool_decide (m_chat_type message = "supergroup"))
  && bool_decide (new_chat_members message = []).

(** [row is not None and row["status"] == st]. *)
Definition has_status (row : option Db.Row) (st : string) : bool :=
  match row with
  | Some r => bool_decide (Db.status r = st)
  | None => false
  end.

Definition on_any_message (message : Message) : Prog :=
  let chat_id := m_chat_id message in
  match from_user message with
  | None => Ret
  | Some user =>
      if is_bot user then Ret
      else
        let user_id := id user in
        Get chat_id user_id (fun row =>
          if has_status row "solved" then Ret
          else
            seq (catch (await_ DeleteMessage) (fun _ => Ret))
                (if has_status row "pending" then Ret
                 else start_captcha_flow chat_id (m_chat_type message) user))
  end.

Record CallbackQuery := mkCallback {
  data : option string;
  from_user_id : Z;
  has_message : bool
}.

Definition bad_data : Prog :=
  await_ (CallbackAnswer "Некорректные данные." true).

Definition inactive : Prog :=
  await_ (CallbackAnswer "Капча уже неактивна." false).

(** The first [try] of the solved path: lift the restriction, in a
    supergroup only; every exception is logged and dropped. *)
Definition lift_restriction (chat_id target_user_id : Z) : Prog :=
  catch
    (await (GetChat chat_id) (fun chat =>
       match chat with
       | VChat type =>
           if decide (type = "supergroup") then
             await_ (RestrictChatMember chat_id target_user_id unrestricted)
           else Ret
       | _ => Raise "AttributeError"
       end))
    (fun _ => Ret).

(** The last [try]: remove the buttons when the message is known. *)
Definition remove_keyboard (callback : CallbackQuery) : Prog :=
  catch
    (if has_message callback then await_ (EditReplyMarkup None) else Ret)
    (fun _ => Ret).

(** [on_captcha_answer] from the read of the row on.  The read is that
    of a key of the table; for an identifier outside [Db.storable] the
    sqlite3 call raises OverflowError instead, so the theorems that
    state a notice or a write for a payload assume storable
    identifiers. *)
Definition answer_submission (callback : CallbackQuery)
    (chat_id target_user_id : Z) (answer : string) : Prog :=
  Get chat_id target_user_id (fun row =>
    match row with
    | None => inactive
    | Some r =>
        if decide (Db.status r = "pending") then
          let correct_answer := Db.answer r in
          if decide (answer = correct_answer) then
            seq (lift_restriction chat_id target_user_id)
              (SetStatus chat_id target_user_id "solved"
                 (seq
                    (await_ (CallbackAnswer
                               "Капча пройдена, добро пожаловать в чат!" true))
                    (remove_keyboard callback)))
          else await_ (CallbackAnswer "Неверно, попробуй ещё раз." true)
        else inactive
    end).

(** The payload of a button: [None] when [split] does not give four
    fields, otherwise the two identifiers as [int] reads them. *)
Definition split_payload (d : string) : option (string * string * string) :=
  match Py.split_max 3 d with
  | [_; chat_id_str; user_id_str; answer] =>
      Some (chat_id_str, user_id_str, answer)
  | _ => None
  end.

Definition on_captcha_answer (callback : CallbackQuery) : Prog :=
  match data callback with
  | None => bad_data
  | Some EmptyString => bad_data
  | Some d =>
      match split_payload d with
      | None => bad_data
      | Some (chat_id_str, user_id_str, answer) =>
          match Py.int chat_id_str with
          | None => Raise "ValueError"
          | Some chat_id =>
              match Py.int user_id_str with
              | None => Raise "ValueError"
              | Some target_user_id =>
                  if decide (from_user_id callback = target_user_id) then
                    answer_submission callback chat_id target_user_id answer
                  else
                    await_ (CallbackAnswer "Эта капча не для тебя." true)
              end
          end
      end
  end.

(** The callback data the platform carries: at most 64 bytes.  (Python
    refuses to convert digit strings beyond its length limit, 4300 by
    default; 64 bytes are far below it.) *)
Definition deliverable (d : string) : Prop := (String.length d <= 64)%nat.

(** When a payload is read as chat, target and answer. *)
Definition parse_payload (d : string) : option (Z * Z * string) :=
  match split_payload d with
  | Some (c, u, a) =>
      match Py.int c, Py.int u with
      | Some chat_id, Some target => Some (chat_id, target, a)
      | _, _ => None
      end
  | None => None
  end.

End Bot.

(** ** Two coroutines on one event loop *)

Module Race.
Import Bot.

(** Which coroutine the loop resumes next. *)
Inductive turn := Answer | Timeout.

#[global] Instance turn_eq_dec : EqDecision turn.
Proof. solve_decision. Defined.

Record Pair := mkPair {
  answer_co : Prog;
  timeout_co : Prog;
  world : World
}.

Definition resume (env : Env) (t : turn) (s : Pair) : Pair :=
  match t with
  | Answer =>
      let '(p, w) := step env (answer_co s) (world s) in
      mkPair p (timeout_co s) w
  | Timeout =>
      let '(q, w) := step env (timeout_co s) (world s) in
      mkPair (answer_co s) q w
  end.

(** The loop resumes the coroutines in the order of the schedule. *)
Definition interleave (env : Env) (sched : list turn) (s : Pair) : Pair :=
  List.fold_left (fun s t => resume env t s) sched s.

(** One coroutine resumed [n] times in a row. *)
Fixpoint solo (env : Env) (n : nat) (p : Prog) (w : World) : Prog * World :=
  match n with
  | O => (p, w)
  | S n' => let '(p', w') := step env p w in solo env n' p' w'
  end.

(** A write that moves a challenge to a final status. *)
Definition is_terminal (o : Db.op) : bool :=
  match o with
  | Db.OpUpdateStatus _ _ st =>
      bool_decide (st = "solved") || bool_decide (st = "kicked")
  | _ => false
  end.

Definition terminal_writes (w : World) : list Db.op :=
  List.filter is_terminal (writes w).

Definition is_ban (c : call) : Prop :=
  exists chat user, c = BanChatMember chat user.

(** A coroutine that writes nothing to the table and removes nobody. *)
Inductive quiet : Prog -> Prop :=
| quiet_ret : quiet Ret
| quiet_raise e : quiet (Raise e)
| quiet_hang : quiet Hang
| quiet_get c u k : (forall r, quiet (k r)) -> quiet (Get c u k)
| quiet_api c k :
    ~ is_ban c -> (forall r, quiet (k r)) -> quiet (Api c k).

(** A coroutine that makes at most one write, the status [st] of the
    key, and is quiet once it has made it. *)
Inductive one_write (c u : Z) (st : string) : Prog -> Prop :=
| ow_quiet p : quiet p -> one_write c u st p
| ow_set k : quiet k -> one_write c u st (SetStatus c u st k)
| ow_api cl k : (forall r, one_write c u st (k r)) -> one_write c u st (Api cl k)
| ow_get c' u' k :
    (forall r, one_write c u st (k r)) -> one_write c u st (Get c' u' k).

(** The row read is missing or not pending. *)
Definition not_pending (row : option Db.Row) : Prop :=
  match row with
  | Some r => Db.status r <> "pending"
  | None => True
  end.

(** A coroutine that is quiet, or reads the row of the key first and is
    quiet when that row is not pending. *)
Definition abstains (c u : Z) (p : Prog) : Prop :=
  quiet p \/
  exists k, p = Get c u k /\ forall row, not_pending row -> quiet (k row).

(** No request of [l'] that is not in [l] removes a member. *)
Definition no_new_ban (l l' : list (call * reply)) : Prop :=
  forall x, x ∈ calls l' -> is_ban x -> x ∈ calls l.

End Race.

(** ** Sample inputs *)

Module Sample.
Import Bot.

(** An entropy source that walks through every range in steps of 7. *)
Definition walking : Gen.Entropy :=
  Gen.mkEntropy (fun i lo hi => lo + (Z.of_nat i * 7) mod (hi - lo + 1))
                (fun _ l => l).

(** An entropy source whose draws are always the lower bound. *)
Definition stuck : Gen.Entropy :=
  Gen.mkEntropy (fun _ lo _ => lo) (fun _ l => l).

(** A platform that accepts every request. *)
Definition willing : nat -> call -> reply := fun _ c =>
  match c with
  | GetChat _ => Returned (VChat "supergroup")
  | GetChatMember _ _ => Returned (VMember "@five")
  | _ => Returned VNone
  end.

(** A platform that refuses every request. *)
Definition refusing : nat -> call -> reply := fun _ _ => Raised "Forbidden".

Definition env_ok : Env := mkEnv willing walking 10.
Definition env_bad : Env := mkEnv refusing walking 10.

Definition row_with (st : string) : Db.Row :=
  Db.mkRow (-100) 5 "1 + 8 = ?" "9" 1000 st.

Definition world_with (t : Db.Table) : World := mkWorld t [] [] [] 1000 0.

Definition pending_world : World := world_with [row_with "pending"].
Definition solved_world : World := world_with [row_with "solved"].
Definition kicked_world : World := world_with [row_with "kicked"].
Definition empty_world : World := world_with [].

Definition five : User := mkUser 5 false "@five".

Definition text_message : Message := mkMessage (-100) "supergroup" (Some five) [].

Definition press (d : string) (from : Z) : CallbackQuery :=
  mkCallback (Some d) from true.

End Sample.

(** ** Notions used in the statements *)

Module Aux.
Import Bot.

(** Every character of the string satisfies [P]. *)
Fixpoint all_ascii (P : ascii -> bool) (s : string) : bool :=
  match s with
  | EmptyString => true
  | String a s' => P a && all_ascii P s'
  end.

Definition not_colon (a : ascii) : bool := negb (Ascii.eqb a ":"%char).

Definition not_space (a : ascii) : bool := negb (Py.is_space a).

(** The buttons of a keyboard in reading order. *)
Definition buttons (kb : Keyboard) : list Button := concat kb.

(** The members of a join message that are not bots. *)
Definition joiners (message : Message) : list User :=
  List.filter (fun user => negb (is_bot user)) (new_chat_members message).

(** The generator returns from every state of the source within the fuel. *)
Definition gen_total (env : Env) : Prop :=
  forall i, is_Some (Gen.generate_captcha (fuel env) (entropy env) i).

(** A coroutine that never asks for the removal of a member, whatever it
    reads and whatever the platform replies. *)
Inductive banless : Prog -> Prop :=
| banless_ret : banless Ret
| banless_raise e : banless (Raise e)
| banless_hang : banless Hang
| banless_get c u k : (forall r, banless (k r)) -> banless (Get c u k)
| banless_save c u q a st k : banless k -> banless (Save c u q a st k)
| banless_set c u st k : banless k -> banless (SetStatus c u st k)
| banless_api c k :
    ~ Race.is_ban c -> (forall r, banless (k r)) -> banless (Api c k)
| banless_generate k : (forall g, banless (k g)) -> banless (Generate k)
| banless_spawn c u t k : banless k -> banless (Spawn c u t k)
| banless_sleep t k : banless k -> banless (Sleep t k).

End Aux.

(** * Properties of the store *)

Section DbFacts.
Import Db.

Lemma matches_true c u r : matches c u r = true <-> chat_id r = c /\ user_id r = u.
Proof.
  unfold matches. rewrite andb_true_iff, !bool_decide_eq_true. tauto.
Qed.

Lemma matches_set_status c u st r : matches c u (set_status st r) = matches c u r.
Proof. reflexivity. Qed.

Lemma matches_other c u c' u' r :
  (c', u') <> (c, u) -> matches c u r = true -> matches c' u' r = false.
Proof.
  intros Hne [Hc Hu]%matches_true.
  destruct (matches c' u' r) eqn:E; [|done].
  apply matches_true in E as [E1 E2]. destruct Hne. congruence.
Qed.

Lemma rows_except_upsert c u q a now st t :
  rows_except c u (upsert (mkRow c u q a now st) t) = rows_except c u t.
Proof.
  unfold rows_except. induction t as [|r t IH]; simpl.
  - assert (matches c u (mkRow c u q a now st) = true) as ->
      by (apply matches_true; done). done.
  - destruct (matches c u r) eqn:E; simpl.
    + apply matches_true in E as [E1 E2]. rewrite E1, E2.
      assert (matches c u (mkRow c u q a now st) = true) as ->
        by (apply matches_true; done). done.
    + rewrite E. simpl. by rewrite IH.
Qed.

Lemma rows_for_upsert_other c u c' u' q a now st t :
  (c', u') <> (c, u) ->
  rows_for c' u' (upsert (mkRow c u q a now st) t) = rows_for c' u' t.
Proof.
  intros Hne. unfold rows_for. induction t as [|r t IH]; simpl.
  - rewrite (matches_other c u c' u'); [done|done|]. by apply matches_true.
  - destruct (matches c u r) eqn:E; simpl.
    + rewrite (matches_other c u c' u' r Hne E).
      rewrite (matches_other c u c' u'); [done|done|].
      apply matches_true in E. by apply matches_true.
    + destruct (matches c' u' r); by rewrite IH.
Qed.

Lemma rows_for_upsert_same c u q a now st t :
  (length (rows_for c u t) <= 1)%nat ->
  rows_for c u (upsert (mkRow c u q a now st) t) = [mkRow c u q a now st].
Proof.
  unfold rows_for. induction t as [|r t IH]; simpl; intros Hlen.
  - assert (matches c u (mkRow c u q a now st) = true) as ->
      by (apply matches_true; done). done.
  - destruct (matches c u r) eqn:E; simpl in *.
    + apply matches_true in E as [E1 E2]. rewrite E1, E2.
      assert (matches c u (mkRow c u q a now st) = true) as ->
        by (apply matches_true; done).
      destruct (List.filter (matches c u) t); [done | simpl in Hlen; lia].
    + rewrite E. by apply IH.
Qed.

Lemma rows_for_update_status c u c' u' st t :
  length (rows_for c' u' (update_status c u st t)) = length (rows_for c' u' t).
Proof.
  unfold rows_for, update_status. induction t as [|r t IH]; simpl; [done|].
  assert (matches c' u' (if matches c u r then set_status st r else r)
          = matches c' u' r) as -> by (destruct (matches c u r); done).
  destruct (matches c' u' r); simpl; by rewrite IH.
Qed.

Lemma rows_for_delete c u c' u' t :
  (length (rows_for c' u' (delete_captcha c u t)) <= length (rows_for c' u' t))%nat.
Proof.
  unfold rows_for, delete_captcha. induction t as [|r t IH]; simpl; [done|].
  destruct (matches c u r); simpl; destruct (matches c' u' r); simpl; lia.
Qed.

Lemma pk_ok_apply_op t o : pk_ok t -> pk_ok (apply_op t o).
Proof.
  intros Hok c' u'. destruct o as [c u q a st now|c u st|c u]; simpl.
  - unfold save_captcha. destruct (decide ((c', u') = (c, u))) as [[= -> ->]|Hne].
    + rewrite rows_for_upsert_same; [done | apply Hok].
    + rewrite rows_for_upsert_other; [apply Hok | done].
  - rewrite rows_for_update_status. apply Hok.
  - etrans; [apply rows_for_delete | apply Hok].
Qed.

Lemma pk_ok_run_ops ops t : pk_ok t -> pk_ok (run_ops ops t).
Proof.
  revert t. induction ops as [|o ops IH]; intros t Hok; simpl; [done|].
  apply IH. by apply pk_ok_apply_op.
Qed.

Lemma pk_ok_nil : pk_ok [].
Proof. intros c u. simpl. lia. Qed.

Lemma get_captcha_rows_for c u t : get_captcha c u t = head (rows_for c u t).
Proof.
  unfold get_captcha, rows_for. induction t as [|r t IH]; simpl; [done|].
  by destruct (matches c u r).
Qed.

Lemma length_upsert_existing new t r :
  get_captcha (chat_id new) (user_id new) t = Some r ->
  length (upsert new t) = length t.
Proof.
  unfold get_captcha. induction t as [|x t IH]; simpl; [done|].
  destruct (matches (chat_id new) (user_id new) x); simpl; [done|].
  intros H. by rewrite IH.
Qed.

Lemma update_status_absent c u st t :
  get_captcha c u t = None -> update_status c u st t = t.
Proof.
  unfold get_captcha, update_status. induction t as [|r t IH]; simpl; [done|].
  destruct (matches c u r); [done|]. intros H. by rewrite IH.
Qed.

Lemma get_update_status_same c u st t :
  get_captcha c u (update_status c u st t) = set_status st <$> get_captcha c u t.
Proof.
  unfold get_captcha, update_status. induction t as [|r t IH]; simpl; [done|].
  destruct (matches c u r) eqn:E; simpl.
  - by rewrite matches_set_status, E.
  - by rewrite E.
Qed.

Lemma rows_except_update_status c u st t :
  rows_except c u (update_status c u st t) = rows_except c u t.
Proof.
  unfold rows_except, update_status. induction t as [|r t IH]; simpl; [done|].
  destruct (matches c u r) eqn:E; simpl.
  - by rewrite matches_set_status, E.
  - rewrite E. simpl. by rewrite IH.
Qed.

Lemma get_update_status_other c u c' u' st t :
  (c', u') <> (c, u) ->
  get_captcha c' u' (update_status c u st t) = get_captcha c' u' t.
Proof.
  intros Hne. unfold get_captcha, update_status.
  induction t as [|r t IH]; simpl; [done|].
  destruct (matches c u r) eqn:E.
  - rewrite matches_set_status, (matches_other c u c' u' r Hne E). apply IH.
  - destruct (matches c' u' r); [done|apply IH].
Qed.

Lemma length_update_status c u st t :
  length (update_status c u st t) = length t.
Proof. apply length_map. Qed.

End DbFacts.

(** C8: from an empty table, after any sequence of writes there is at
    most one row for each (chat_id, user_id); [save_captcha] leaves
    exactly the new row under its key, with the given question, answer
    and status and the current time, read back by [get_captcha]; it adds
    no row when one was there; the rows of all other keys are the same
    as before; and the status is 'pending' when none is given. *)
Theorem save_captcha_upsert :
  forall (ops : list Db.op) (c u : Z) (q a st : string) (now : Z),
    let t := Db.run_ops ops (Db.init_db None) in
    let t' := Db.save_captcha c u q a st now t in
    Db.pk_ok t /\
    Db.rows_for c u t' = [Db.mkRow c u q a now st] /\
    Db.get_captcha c u t' = Some (Db.mkRow c u q a now st) /\
    (is_Some (Db.get_captcha c u t) -> length t' = length t) /\
    Db.rows_except c u t' = Db.rows_except c u t /\
    (forall c' u', (c', u') <> (c, u) ->
       Db.get_captcha c' u' t' = Db.get_captcha c' u' t) /\
    Db.save_captcha_default c u q a now t
      = Db.save_captcha c u q a "pending" now t.
Proof.
  intros ops c u q a st now t t'.
  assert (Db.pk_ok t) as Hok by (apply pk_ok_run_ops, pk_ok_nil).
  assert (Db.rows_for c u t' = [Db.mkRow c u q a now st]) as Hrows
    by (apply rows_for_upsert_same, Hok).
  split_and!; try done.
  - by rewrite get_captcha_rows_for, Hrows.
  - intros [r Hr]. by apply (length_upsert_existing (Db.mkRow c u q a now st) t r).
  - apply rows_except_upsert.
  - intros c' u' Hne. rewrite !get_captcha_rows_for.
    unfold t', Db.save_captcha. by rewrite rows_for_upsert_other.
Qed.

(** C9: [update_status] on a key without a row gives back the table as
    it was; on a key with a row it changes the status of that row and
    keeps its question, answer and creation time; the rows of all other
    keys, and the number of rows, are unchanged. *)
Theorem update_status_frame :
  forall (c u : Z) (st : string) (t : Db.Table),
    let t' := Db.update_status c u st t in
    (Db.get_captcha c u t = None -> t' = t) /\
    (forall r, Db.get_captcha c u t = Some r ->
       exists r', Db.get_captcha c u t' = Some r' /\
         Db.status r' = st /\
         Db.chat_id r' = Db.chat_id r /\ Db.user_id r' = Db.user_id r /\
         Db.question r' = Db.question r /\ Db.answer r' = Db.answer r /\
         Db.created_at r' = Db.created_at r) /\
    Db.rows_except c u t' = Db.rows_except c u t /\
    (forall c' u', (c', u') <> (c, u) ->
       Db.get_captcha c' u' t' = Db.get_captcha c' u' t) /\
    length t' = length t.
Proof.
  intros c u st t t'. split_and!.
  - apply update_status_absent.
  - intros r Hr. exists (Db.set_status st r). split; [|done].
    unfold t'. by rewrite get_update_status_same, Hr.
  - apply rows_except_update_status.
  - intros c' u' Hne. by apply get_update_status_other.
  - apply length_update_status.
Qed.

(** * Properties of the generator *)

Section GenFacts.
Import Gen.

Lemma size_add_le (x : string) (A : gset string) :
  (size ({[ x ]} ∪ A) <= S (size A))%nat.
Proof.
  rewrite size_union_alt, size_singleton.
  assert (size (A ∖ {[ x ]}) <= size A)%nat by (apply subseteq_size; set_solver).
  lia.
Qed.

Lemma size_add_fresh (x : string) (A : gset string) :
  x ∉ A -> size ({[ x ]} ∪ A) = S (size A).
Proof.
  intros Hx. rewrite size_union by set_solver. by rewrite size_singleton.
Qed.

Lemma collect_unfold fuel e i A :
  collect fuel e i A =
    if decide (size A < 4)%nat then
      match fuel with
      | O => None
      | S fuel' => collect fuel' e (S i) ({[ str (randint e i 2 18) ]} ∪ A)
      end
    else Some (i, A).
Proof. by destruct fuel. Qed.

Lemma collect_spec fuel e i A j A' :
  collect fuel e i A = Some (j, A') ->
  ((size A <= 4)%nat -> size A' = 4%nat) /\
  A ⊆ A' /\
  (forall x, x ∈ A' -> x ∈ A \/ exists k, x = str (randint e k 2 18)).
Proof.
  revert i A. induction fuel as [|fuel IH]; intros i A; rewrite collect_unfold.
  - case_decide; [done|]. intros [= <- <-]. split_and!; [lia|done|auto].
  - case_decide.
    + intros Hc. apply IH in Hc as (Hsz & Hsub & Hin). split_and!.
      * intros _. apply Hsz. pose proof (size_add_le (str (randint e i 2 18)) A). lia.
      * set_solver.
      * intros x Hx. destruct (Hin x Hx) as [Hx'|Hx']; [|by right].
        apply elem_of_union in Hx' as [->%elem_of_singleton|Hx']; [right; eauto|by left].
    + intros [= <- <-]. split_and!; [lia|done|auto].
Qed.

Lemma draws_S e i n :
  draws e i (S n) = randint e i 2 18 :: draws e (S i) n.
Proof.
  unfold draws. simpl. rewrite Nat.add_0_r. f_equal.
  rewrite <- fmap_S_seq, <- list_fmap_compose.
  apply list_fmap_ext. intros _ k _. simpl. f_equal. lia.
Qed.

Lemma answers_after_0 e i A : answers_after e i A 0 = A.
Proof. unfold answers_after, draws. simpl. set_solver. Qed.

Lemma answers_after_S e i A n :
  answers_after e i A (S n)
  = answers_after e (S i) ({[ str (randint e i 2 18) ]} ∪ A) n.
Proof. unfold answers_after. rewrite draws_S. simpl. set_solver. Qed.

(** The loop ends within the fuel exactly when some prefix of the draws
    brings the set to four elements. *)
Lemma collect_is_Some fuel e i A :
  is_Some (collect fuel e i A) <->
  exists n, (n <= fuel)%nat /\ (4 <= size (answers_after e i A n))%nat.
Proof.
  revert i A. induction fuel as [|fuel IH]; intros i A; rewrite collect_unfold.
  - case_decide as Hsz.
    + split; [by intros []|]. intros (n & Hn & H4).
      assert (n = 0)%nat as -> by lia. rewrite answers_after_0 in H4. lia.
    + split; [|by eauto]. intros _. exists 0%nat.
      rewrite answers_after_0. split; lia.
  - case_decide as Hsz.
    + rewrite IH. split.
      * intros (n & Hn & H4). exists (S n). rewrite answers_after_S. split; [lia|done].
      * intros (n & Hn & H4). destruct n as [|n].
        { rewrite answers_after_0 in H4. lia. }
        exists n. rewrite answers_after_S in H4. split; [lia|done].
    + split; [|by eauto]. intros _. exists 0%nat.
      rewrite answers_after_0. split; lia.
Qed.

Lemma size_set_map_str (X : gset Z) :
  size (set_map str X : gset string) = size X.
Proof.
  unfold set_map. rewrite size_list_to_set.
  - rewrite length_fmap. done.
  - apply NoDup_fmap_2; [apply pretty_Z_inj | apply NoDup_elements].
Qed.

Lemma answers_after_decoys e i c n :
  size (answers_after e i {[ str c ]} n) = S (size (decoys c (draws e i n))).
Proof.
  unfold answers_after, decoys.
  set (l := draws e i n).
  assert ((list_to_set (str <$> l) ∪ {[ str c ]} : gset string)
          = set_map str ({[ c ]} ∪ (list_to_set l ∖ {[ c ]}) : gset Z)) as ->.
  { apply set_eq. intros x. rewrite elem_of_union, elem_of_list_to_set,
      list_elem_of_fmap, elem_of_singleton, elem_of_map. split.
    - intros [(y & -> & Hy)| ->].
      + exists y. split; [done|].
        destruct (decide (y = c)) as [->|Hne]; [set_solver|].
        apply elem_of_union_r, elem_of_difference.
        split; [by apply elem_of_list_to_set | set_solver].
      + exists c. split; [done | set_solver].
    - intros (y & -> & Hy). apply elem_of_union in Hy as [Hy|Hy].
      + right. apply elem_of_singleton in Hy. by subst.
      + left. exists y. split; [done|].
        apply elem_of_difference in Hy as [Hy _]. by apply elem_of_list_to_set in Hy. }
  rewrite size_set_map_str, size_union by set_solver.
  by rewrite size_singleton.
Qed.

Lemma decoys_range e i c n d :
  entropy_ok e -> d ∈ decoys c (draws e i n) -> 2 <= d <= 18 /\ d <> c.
Proof.
  intros [Hr _] Hd. unfold decoys in Hd.
  apply elem_of_difference in Hd as [Hd Hc].
  apply elem_of_list_to_set in Hd. unfold draws in Hd.
  apply list_elem_of_fmap in Hd as (k & -> & _).
  split; [apply Hr; lia | set_solver].
Qed.

End GenFacts.

Section GenTheorems.
Import Gen.

Lemma answers_after_snoc e i A n :
  answers_after e i A (S n)
  = {[ str (randint e (i + n) 2 18) ]} ∪ answers_after e i A n.
Proof.
  unfold answers_after, draws. rewrite seq_S, !fmap_app. simpl.
  rewrite list_to_set_app_L. simpl. set_solver.
Qed.

Lemma generate_captcha_is_Some fuel e i :
  is_Some (generate_captcha fuel e i) <->
  is_Some (collect fuel e (S (S i))
             {[ str (randint e i 1 9 + randint e (S i) 1 9) ]}).
Proof.
  unfold generate_captcha.
  destruct (collect fuel e (S (S i)) _) as [[j A]|]; split; eauto;
    by intros [].
Qed.

End GenTheorems.

(** C3: whatever [generate_captcha] returns, the question shows two
    integers of [1,9], the correct answer is the string of their sum,
    the options are four pairwise distinct strings with the correct
    answer among them, and every other option is the string of an
    integer of [2,18] that is not the sum. *)
Theorem generate_captcha_sound :
  forall (fuel : nat) (e : Gen.Entropy) (i : nat)
         (question correct : string) (options : list string) (j : nat),
    Gen.entropy_ok e ->
    Gen.generate_captcha fuel e i = Some (question, correct, options, j) ->
    exists a b : Z,
      1 <= a <= 9 /\ 1 <= b <= 9 /\
      question = Gen.question_of a b /\
      correct = Gen.str (a + b) /\
      length options = 4%nat /\
      NoDup options /\
      correct ∈ options /\
      forall o, o ∈ options -> o <> correct ->
        exists d : Z, 2 <= d <= 18 /\ d <> a + b /\ o = Gen.str d.
Proof.
  intros fuel e i question correct options j [Hr Hp] Hg.
  unfold Gen.generate_captcha in Hg.
  destruct (Gen.collect fuel e (S (S i)) _) as [[j' A]|] eqn:Hc; [|done].
  injection Hg as <- <- <- <-.
  apply collect_spec in Hc as (Hsz & Hsub & Hin).
  exists (Gen.randint e i 1 9), (Gen.randint e (S i) 1 9).
  split_and!; try done; try (apply Hr; lia).
  - rewrite (Permutation_length (Hp j' (elements A))).
    apply Hsz. rewrite size_singleton. lia.
  - apply (NoDup_Permutation_proper _ _ (Hp j' (elements A))), NoDup_elements.
  - rewrite (Hp j' (elements A)). apply elem_of_elements. set_solver.
  - intros o Ho Hne. rewrite (Hp j' (elements A)) in Ho.
    apply elem_of_elements in Ho. destruct (Hin o Ho) as [Ho'|[k ->]].
    + by apply elem_of_singleton in Ho'.
    + exists (Gen.randint e k 2 18). split_and!; [apply Hr; lia..| |done].
      intros Heq. apply Hne. by rewrite Heq.
Qed.

(** C10: the loop that collects the decoys ends, and the generator
    returns, once the fuel covers a prefix of the draws with three
    distinct values other than the correct one, and then with exactly
    four options; when no prefix of the draws has three such values the
    loop never ends, whatever the fuel.  A draw that is not yet among
    the answers makes the set one larger, and the values counted lie in
    [2,18]. *)
Theorem decoy_loop_termination :
  forall (e : Gen.Entropy) (i : nat),
    let correct := Gen.randint e i 1 9 + Gen.randint e (S i) 1 9 in
    let first := S (S i) in
    let start : gset string := {[ Gen.str correct ]} in
    let seen n := Gen.decoys correct (Gen.draws e first n) in
    (forall n, (3 <= size (seen n))%nat ->
       forall fuel, (n <= fuel)%nat ->
         (exists j A, Gen.collect fuel e first start = Some (j, A)
                      /\ size A = 4%nat) /\
         is_Some (Gen.generate_captcha fuel e i)) /\
    ((forall n, (size (seen n) < 3)%nat) ->
       forall fuel, Gen.collect fuel e first start = None /\
                    Gen.generate_captcha fuel e i = None) /\
    (forall n,
       Gen.str (Gen.randint e (first + n) 2 18)
         ∉ Gen.answers_after e first start n ->
       size (Gen.answers_after e first start (S n))
       = S (size (Gen.answers_after e first start n))) /\
    (Gen.entropy_ok e ->
       forall n d, d ∈ seen n -> 2 <= d <= 18 /\ d <> correct).
Proof.
  intros e i correct first start seen. split_and!.
  - intros n Hn fuel Hfuel.
    assert (is_Some (Gen.collect fuel e first start)) as [[j A] Hc].
    { apply collect_is_Some. exists n. split; [done|].
      unfold start. rewrite answers_after_decoys. fold (seen n). lia. }
    split.
    + exists j, A. split; [done|].
      apply collect_spec in Hc as (Hsz & _). apply Hsz.
      unfold start. rewrite size_singleton. lia.
    + apply generate_captcha_is_Some. fold correct first start. by rewrite Hc.
  - intros Hall fuel.
    assert (Gen.collect fuel e first start = None) as Hnone.
    { apply eq_None_not_Some. intros (n & _ & H4)%collect_is_Some.
      unfold start in H4. rewrite answers_after_decoys in H4.
      specialize (Hall n). unfold seen in Hall. lia. }
    split; [done|].
    apply eq_None_not_Some. intros Hs%generate_captcha_is_Some.
    fold correct first start in Hs. rewrite Hnone in Hs. by destruct Hs.
  - intros n Hfresh. rewrite answers_after_snoc. by apply size_add_fresh.
  - intros Hok n d Hd. by apply (decoys_range e first correct n d).
Qed.

(** * Properties of the handlers *)

Section RunFacts.
Import Bot.
Variable env : Env.

Lemma run_seq p q w :
  run env (seq p q) w =
    match run env p w with
    | (Finished, w') => run env q w'
    | r => r
    end.
Proof.
  revert w. induction p as [|e| |c u k IH|c u qu a st k IH|c u st k IH|c k IH
                            |k IH|c u t k IH|t k IH]; intros w; simpl; auto.
  destruct (Gen.generate_captcha _ _ _) as [[[[? ?] ?] ?]|]; auto.
Qed.

Lemma run_catch p h w :
  run env (catch p h) w =
    match run env p w with
    | (Uncaught e, w') => run env (h e) w'
    | r => r
    end.
Proof.
  revert w. induction p as [|e| |c u k IH|c u qu a st k IH|c u st k IH|c k IH
                            |k IH|c u t k IH|t k IH]; intros w; simpl; auto.
  destruct (Gen.generate_captcha _ _ _) as [[[[? ?] ?] ?]|]; auto.
Qed.

(** A run agrees with stepping once and running the rest. *)
Lemma run_step p w :
  run env p w = run env (step env p w).1 (step env p w).2.
Proof.
  destruct p as [|e| |c u k|c u qu a st k|c u st k|c k|k|c u t k|t k];
    simpl; auto.
  by destruct (Gen.generate_captcha _ _ _) as [[[[? ?] ?] ?]|].
Qed.

Lemma run_Get c u k w :
  run env (Get c u k) w = run env (k (Db.get_captcha c u (table w))) w.
Proof. done. Qed.

Lemma run_SetStatus c u st k w :
  run env (SetStatus c u st k) w
  = run env k (do_write (Db.OpUpdateStatus c u st) w).
Proof. done. Qed.

(** What a single request leaves behind. *)
Lemma run_await_ c w :
  run env (await_ c) w =
    (match platform env (length (log w)) c with
     | Returned _ => Finished
     | Raised e => Uncaught e
     end,
     (do_call env c w).2).
Proof.
  unfold await_, await. simpl. by destruct (platform env _ c).
Qed.

Lemma run_try_await_ c w :
  run env (catch (await_ c) (fun _ => Ret)) w = (Finished, (do_call env c w).2).
Proof.
  rewrite run_catch, run_await_. by destruct (platform env _ c).
Qed.

End RunFacts.

Section AnswerFacts.
Import Bot.
Variable env : Env.

Lemma same_state_refl w : same_state w w.
Proof. done. Qed.

Lemma same_state_trans w1 w2 w3 :
  same_state w1 w2 -> same_state w2 w3 -> same_state w1 w3.
Proof. intros (?&?&?) (?&?&?). split_and!; congruence. Qed.

Lemma same_state_do_call c w : same_state w (do_call env c w).2.
Proof. done. Qed.

Lemma calls_do_call c w :
  calls (log (do_call env c w).2) = (calls (log w) ++ [c])%list.
Proof. unfold calls. simpl. by rewrite fmap_app. Qed.

Lemma on_captcha_answer_parsed cb d c t a :
  data cb = Some d -> parse_payload d = Some (c, t, a) ->
  on_captcha_answer cb =
    if decide (from_user_id cb = t) then answer_submission cb c t a
    else await_ (CallbackAnswer "Эта капча не для тебя." true).
Proof.
  intros Hd Hp. unfold on_captcha_answer, parse_payload in *. rewrite Hd.
  destruct d as [|ch d']; [by vm_compute in Hp|].
  destruct (split_payload (String ch d')) as [[[cs us] an]|]; [|done].
  destruct (Py.int cs); [|done]. destruct (Py.int us); [|done].
  by injection Hp as -> -> ->.
Qed.

Lemma run_lift_restriction c t w :
  exists w', run env (lift_restriction c t) w = (Finished, w')
             /\ same_state w w'
             /\ forall x, x ∈ calls (log w') ->
                  x ∈ calls (log w) \/ x = GetChat c
                  \/ x = RestrictChatMember c t unrestricted.
Proof.
  unfold lift_restriction. rewrite run_catch. unfold await. simpl.
  unfold calls.
  destruct (platform env (length (log w)) (GetChat c)) as [[| |ty]|e] eqn:E;
    simpl; try (eexists; split; [done|]; split; [done|]; simpl;
                intros x; rewrite fmap_app; set_solver).
  case_decide; simpl.
  - match goal with |- context [platform env ?n ?c'] =>
      destruct (platform env n c') end;
      simpl; eexists; (split; [done|]); (split; [done|]); simpl;
      intros x; rewrite !fmap_app; set_solver.
  - eexists; split; [done|]; split; [done|]; simpl;
      intros x; rewrite fmap_app; set_solver.
Qed.

Lemma run_acknowledge cb text w :
  let w' := (run env (seq (await_ (CallbackAnswer text true))
                          (remove_keyboard cb)) w).2 in
  same_state w w' /\ CallbackAnswer text true ∈ calls (log w').
Proof.
  cbv zeta. rewrite run_seq, run_await_.
  destruct (platform env (length (log w)) _) eqn:E; simpl.
  - unfold remove_keyboard. rewrite run_catch.
    destruct (has_message cb); simpl.
    + destruct (platform env _ (EditReplyMarkup None)); simpl;
        (split; [done|]); unfold calls; simpl; rewrite !fmap_app; set_solver.
    + split; [done|]. unfold calls; simpl; rewrite !fmap_app; set_solver.
  - split; [done|]. unfold calls; simpl; rewrite !fmap_app; set_solver.
Qed.

End AnswerFacts.

(** C1: for callback data the platform can carry, read as a chat and a
    user that are keys of the table (64-bit integers): an answer from
    the challenged user on a key without a pending row is turned down as
    inactive and nothing is written; a value other than the stored
    answer is turned down as wrong and nothing is written; the stored
    answer sets the status to 'solved', whatever the platform replies to
    the requests that lift the restriction; and the same answer sent
    again is turned down as inactive, with no second write. *)
Theorem answer_submission_cases :
  forall (env : Bot.Env) (cb : Bot.CallbackQuery) (d : string) (c u : Z)
         (a : string) (w : Bot.World),
    Bot.data cb = Some d ->
    Bot.deliverable d ->
    Bot.parse_payload d = Some (c, u, a) ->
    Db.storable c ->
    Db.storable u ->
    Bot.from_user_id cb = u ->
    let row := Db.get_captcha c u (Bot.table w) in
    let w' := (Bot.run env (Bot.on_captcha_answer cb) w).2 in
    ((row = None \/ exists r, row = Some r /\ Db.status r <> "pending") ->
       Bot.same_state w w' /\
       Bot.calls (Bot.log w')
       = (Bot.calls (Bot.log w)
          ++ [Bot.CallbackAnswer "Капча уже неактивна." false])%list) /\
    (forall r, row = Some r -> Db.status r = "pending" -> a <> Db.answer r ->
       Bot.same_state w w' /\
       Bot.calls (Bot.log w')
       = (Bot.calls (Bot.log w)
          ++ [Bot.CallbackAnswer "Неверно, попробуй ещё раз." true])%list) /\
    (forall r, row = Some r -> Db.status r = "pending" -> a = Db.answer r ->
       Bot.table w' = Db.update_status c u "solved" (Bot.table w) /\
       Bot.writes w' = (Bot.writes w ++ [Db.OpUpdateStatus c u "solved"])%list /\
       Db.get_captcha c u (Bot.table w') = Some (Db.set_status "solved" r) /\
       Bot.CallbackAnswer "Капча пройдена, добро пожаловать в чат!" true
         ∈ Bot.calls (Bot.log w') /\
       let w'' := (Bot.run env (Bot.on_captcha_answer cb) w').2 in
       Bot.same_state w' w'' /\
       Bot.calls (Bot.log w'')
       = (Bot.calls (Bot.log w')
          ++ [Bot.CallbackAnswer "Капча уже неактивна." false])%list).
Proof.
  intros env cb d c u a w Hd _ Hp _ _ Hfrom row w'.
  assert (forall w0,
    (Db.get_captcha c u (Bot.table w0) = None \/
     exists r, Db.get_captcha c u (Bot.table w0) = Some r
               /\ Db.status r <> "pending") ->
    Bot.run env (Bot.on_captcha_answer cb) w0
    = Bot.run env Bot.inactive w0) as Hinactive.
  { intros w0 Hrow. rewrite (on_captcha_answer_parsed cb d c u a Hd Hp).
    rewrite decide_True by done. unfold Bot.answer_submission. simpl.
    destruct Hrow as [Hn | (r & Hr & Hst)]; rewrite ?Hn, ?Hr; [done|].
    by rewrite decide_False. }
  subst w'. split_and!.
  - intros Hrow. rewrite (Hinactive w Hrow). unfold Bot.inactive.
    rewrite run_await_. simpl. split; [done|]. apply calls_do_call.
  - intros r Hrow Hst Hne.
    rewrite (on_captcha_answer_parsed cb d c u a Hd Hp).
    rewrite decide_True by done. unfold Bot.answer_submission. simpl.
    fold row. rewrite Hrow, decide_True, decide_False by done.
    rewrite run_await_. simpl. split; [done|]. apply calls_do_call.
  - intros r Hrow Hst Heq.
    assert (exists w1,
      Bot.same_state w w1 /\
      let w2 := Bot.do_write (Db.OpUpdateStatus c u "solved") w1 in
      (Bot.run env (Bot.on_captcha_answer cb) w).2
      = (Bot.run env
           (Bot.seq (Bot.await_ (Bot.CallbackAnswer
                        "Капча пройдена, добро пожаловать в чат!" true))
                    (Bot.remove_keyboard cb)) w2).2) as (w1 & Hs1 & Hrun).
    { rewrite (on_captcha_answer_parsed cb d c u a Hd Hp).
      rewrite decide_True by done. unfold Bot.answer_submission.
      rewrite run_Get. fold row. rewrite Hrow. cbv beta iota.
      rewrite !decide_True by done. rewrite run_seq.
      destruct (run_lift_restriction env c u w) as (w1 & -> & Hs1 & _).
      exists w1. split; [done|]. done. }
    simpl in Hrun.
    destruct (run_acknowledge env cb "Капча пройдена, добро пожаловать в чат!"
                (Bot.do_write (Db.OpUpdateStatus c u "solved") w1))
      as [(Ht & Hw & Hsp) Hack].
    simpl in Ht, Hw, Hsp, Hack. rewrite <- Hrun in Ht, Hw, Hsp, Hack.
    destruct Hs1 as (Ht1 & Hw1 & Hsp1).
    assert (Db.get_captcha c u
              (Bot.table (Bot.run env (Bot.on_captcha_answer cb) w).2)
            = Some (Db.set_status "solved" r)) as Hget.
    { rewrite Ht, Ht1, get_update_status_same. fold row. by rewrite Hrow. }
    split_and!.
    + by rewrite Ht, Ht1.
    + by rewrite Hw, Hw1.
    + done.
    + done.
    + cbv zeta.
      rewrite (Hinactive (Bot.run env (Bot.on_captcha_answer cb) w).2).
      * unfold Bot.inactive. rewrite run_await_. cbn [snd].
        split; [apply same_state_do_call | apply calls_do_call].
      * right. eexists. split; [exact Hget|]. simpl. done.
Qed.

(** C6: for callback data the platform can carry, a press by anyone but
    the user named in the payload is answered with the notice that the
    challenge is not theirs; the table, the history of writes and the
    tasks stay as they were, whatever the chosen answer and whatever the
    table holds. *)
Theorem foreign_answer_rejected :
  forall (env : Bot.Env) (cb : Bot.CallbackQuery) (d : string) (c t : Z)
         (a : string) (w : Bot.World),
    Bot.data cb = Some d ->
    Bot.deliverable d ->
    Bot.parse_payload d = Some (c, t, a) ->
    Bot.from_user_id cb <> t ->
    let w' := (Bot.run env (Bot.on_captcha_answer cb) w).2 in
    Bot.same_state w w' /\
    Bot.calls (Bot.log w')
    = (Bot.calls (Bot.log w)
       ++ [Bot.CallbackAnswer "Эта капча не для тебя." true])%list.
Proof.
  intros env cb d c t a w Hd _ Hp Hne w'. subst w'.
  rewrite (on_captcha_answer_parsed cb d c t a Hd Hp).
  rewrite decide_False by done. rewrite run_await_. cbn [snd].
  split; [apply same_state_do_call | apply calls_do_call].
Qed.



Section MessageFacts.
Import Bot.
Variable env : Env.

(** What issuing a challenge leaves behind when the generator returns. *)
Lemma run_start_captcha_flow c ty user w q a opts j :
  Gen.generate_captcha (fuel env) (entropy env) (rng w) = Some (q, a, opts, j) ->
  let res := run env (start_captcha_flow c ty user) w in
  res.1 = Finished /\
  table res.2 = Db.save_captcha c (id user) q a "pending" (now w) (table w) /\
  writes res.2 = (writes w ++ [Db.OpSave c (id user) q a "pending" (now w)])%list /\
  spawned res.2 = (spawned w ++ [(c, id user, 60)])%list /\
  calls (log res.2)
  = (calls (log w)
     ++ (if decide (ty = "supergroup")
         then [RestrictChatMember c (id user) restricted] else [])
     ++ [SendMessage c (prompt_text (mention_html user) q)
           (Some (build_captcha_keyboard c (id user) opts))])%list.
Proof.
  intros Hg. cbv zeta. unfold start_captcha_flow. cbn [run]. rewrite Hg.
  cbn [run]. rewrite run_seq.
  case_decide.
  - rewrite run_try_await_, run_seq, run_try_await_. cbn [run].
    split_and!; try done.
    cbn [snd do_spawn log]. rewrite !calls_do_call. cbn.
    by rewrite <- app_assoc.
  - cbn [run]. rewrite run_seq, run_try_await_. cbn [run].
    split_and!; try done.
    cbn [snd do_spawn log]. rewrite !calls_do_call. by cbn.
Qed.

Lemma run_start_captcha_flow_diverges c ty user w :
  Gen.generate_captcha (fuel env) (entropy env) (rng w) = None ->
  run env (start_captcha_flow c ty user) w = (Diverged, w).
Proof. intros Hg. unfold start_captcha_flow. cbn [run]. by rewrite Hg. Qed.

End MessageFacts.

(** C4 as the handler has it: a message of a user whose challenge is
    solved changes nothing; otherwise the deletion of the message is
    asked for; if the challenge is pending nothing more happens: no
    write, no prompt, no task; in every other case, a missing row or a
    row with any other status such as 'kicked', a challenge is issued:
    the row is saved as pending, the prompt is sent and the timeout task
    is created. *)
Theorem on_any_message_cases :
  forall (env : Bot.Env) (message : Bot.Message) (user : Bot.User)
         (w : Bot.World),
    Bot.from_user message = Some user ->
    Bot.is_bot user = false ->
    let c := Bot.m_chat_id message in
    let u := Bot.id user in
    let row := Db.get_captcha c u (Bot.table w) in
    let res := Bot.run env (Bot.on_any_message message) w in
    let wd := (Bot.do_call env Bot.DeleteMessage w).2 in
    (forall r, row = Some r -> Db.status r = "solved" ->
       res = (Bot.Finished, w)) /\
    (forall r, row = Some r -> Db.status r = "pending" ->
       res = (Bot.Finished, wd)) /\
    ((row = None \/
      exists r, row = Some r /\ Db.status r <> "solved"
                /\ Db.status r <> "pending") ->
       res = Bot.run env (Bot.start_captcha_flow c (Bot.m_chat_type message) user) wd /\
       forall q a opts j,
         Gen.generate_captcha (Bot.fuel env) (Bot.entropy env) (Bot.rng w)
         = Some (q, a, opts, j) ->
         res.1 = Bot.Finished /\
         Bot.table res.2
         = Db.save_captcha c u q a "pending" (Bot.now w) (Bot.table w) /\
         Bot.writes res.2
         = (Bot.writes w ++ [Db.OpSave c u q a "pending" (Bot.now w)])%list /\
         Bot.spawned res.2 = (Bot.spawned w ++ [(c, u, 60)])%list /\
         Bot.SendMessage c (Bot.prompt_text (Bot.mention_html user) q)
           (Some (Bot.build_captcha_keyboard c u opts))
           ∈ Bot.calls (Bot.log res.2)).
Proof.
  intros env message user w Hfrom Hbot c u row res wd.
  assert (res = Bot.run env
            (if Bot.has_status row "solved" then Bot.Ret
             else Bot.seq (Bot.catch (Bot.await_ Bot.DeleteMessage)
                                     (fun _ => Bot.Ret))
                    (if Bot.has_status row "pending" then Bot.Ret
                     else Bot.start_captcha_flow c (Bot.m_chat_type message)
                            user)) w) as Hres.
  { unfold res, Bot.on_any_message. by rewrite Hfrom, Hbot. }
  split_and!.
  - intros r Hrow Hst. rewrite Hres, Hrow. simpl.
    by rewrite bool_decide_eq_true_2.
  - intros r Hrow Hst. rewrite Hres, Hrow. cbn [Bot.has_status].
    rewrite Hst. rewrite bool_decide_eq_false_2 by done.
    rewrite bool_decide_eq_true_2 by done.
    by rewrite run_seq, run_try_await_.
  - intros Hrow.
    assert (res = Bot.run env
              (Bot.start_captcha_flow c (Bot.m_chat_type message) user) wd)
      as Hflow.
    { rewrite Hres.
      assert (Bot.has_status row "solved" = false
              /\ Bot.has_status row "pending" = false) as [-> ->].
      { destruct Hrow as [Hn | (r & Hr & H1 & H2)]; rewrite ?Hn, ?Hr; [done|].
        cbn [Bot.has_status]. by rewrite !bool_decide_eq_false_2. }
      by rewrite run_seq, run_try_await_. }
    split; [done|]. intros q a opts j Hg. rewrite Hflow.
    destruct (run_start_captcha_flow env c (Bot.m_chat_type message) user wd
                q a opts j Hg) as (H1 & H2 & H3 & H4 & H5).
    split_and!; try done.
    rewrite H5. set_solver.
Qed.

(** * Properties of interleaved runs *)

Section RaceFacts.
Import Bot Race.
Variable env : Env.

Lemma not_ban_callback text alert : ~ is_ban (CallbackAnswer text alert).
Proof. by intros (? & ? & ?). Qed.

Lemma not_ban_send chat text kb : ~ is_ban (SendMessage chat text kb).
Proof. by intros (? & ? & ?). Qed.

Lemma not_ban_get_chat chat : ~ is_ban (GetChat chat).
Proof. by intros (? & ? & ?). Qed.

Lemma not_ban_get_member chat user : ~ is_ban (GetChatMember chat user).
Proof. by intros (? & ? & ?). Qed.

Lemma not_ban_restrict chat user p : ~ is_ban (RestrictChatMember chat user p).
Proof. by intros (? & ? & ?). Qed.

Lemma not_ban_edit kb : ~ is_ban (EditReplyMarkup kb).
Proof. by intros (? & ? & ?). Qed.

Lemma quiet_await_ c : ~ is_ban c -> quiet (await_ c).
Proof.
  intros Hc. apply quiet_api; [done|]. intros [v|e]; constructor.
Qed.

Lemma quiet_try_await_ c : ~ is_ban c -> quiet (catch (await_ c) (fun _ => Ret)).
Proof.
  intros Hc. apply quiet_api; [done|]. intros [v|e]; constructor.
Qed.

Lemma no_new_ban_refl l : no_new_ban l l.
Proof. by intros x Hx _. Qed.

Lemma no_new_ban_trans l1 l2 l3 :
  no_new_ban l1 l2 -> no_new_ban l2 l3 -> no_new_ban l1 l3.
Proof. intros H12 H23 x Hx Hb. apply H12; [|done]. by apply H23. Qed.

Lemma no_new_ban_call c w :
  ~ is_ban c -> no_new_ban (log w) (log (do_call env c w).2).
Proof.
  intros Hc x Hx Hb. rewrite calls_do_call in Hx.
  apply elem_of_app in Hx as [Hx|Hx]; [done|].
  apply list_elem_of_singleton in Hx. by subst.
Qed.

(** A quiet coroutine stays quiet and leaves the table alone. *)
Lemma quiet_step p w :
  quiet p ->
  quiet (step env p w).1 /\
  same_state w (step env p w).2 /\
  no_new_ban (log w) (log (step env p w).2).
Proof.
  intros Hq. destruct Hq as [|e| |c u k Hk|c k Hc Hk]; simpl.
  - split_and!; [constructor | done | apply no_new_ban_refl].
  - split_and!; [constructor | done | apply no_new_ban_refl].
  - split_and!; [constructor | done | apply no_new_ban_refl].
  - split_and!; [apply Hk | done | apply no_new_ban_refl].
  - split_and!; [apply Hk | done | by apply (no_new_ban_call c w)].
Qed.

Lemma abstains_step c u p w :
  abstains c u p ->
  not_pending (Db.get_captcha c u (table w)) ->
  quiet (step env p w).1 /\
  same_state w (step env p w).2 /\
  no_new_ban (log w) (log (step env p w).2).
Proof.
  intros [Hq|(k & -> & Hk)] Hrow; [by apply quiet_step|].
  simpl. split_and!; [by apply Hk | done | apply no_new_ban_refl].
Qed.

(** With no pending row, two abstaining coroutines write nothing and
    remove nobody, in whatever order they are resumed. *)
Lemma interleave_abstains c u sched s :
  abstains c u (answer_co s) ->
  abstains c u (timeout_co s) ->
  not_pending (Db.get_captcha c u (table (world s))) ->
  let s' := interleave env sched s in
  same_state (world s) (world s') /\
  no_new_ban (log (world s)) (log (world s')).
Proof.
  revert s. induction sched as [|t sched IH]; intros s Ha Ht Hrow.
  - split; [done | apply no_new_ban_refl].
  - cbv zeta. unfold interleave. cbn [fold_left].
    fold (interleave env sched (resume env t s)).
    destruct t; unfold resume.
    + destruct (abstains_step c u _ (world s) Ha Hrow) as (Hq & Hs & Hb).
      destruct (step env (answer_co s) (world s)) as [p w'] eqn:E.
      simpl in Hq, Hs, Hb.
      destruct (IH (mkPair p (timeout_co s) w')) as [Hs' Hb'];
        [by left | done | simpl; destruct Hs as (-> & _); done |].
      simpl in Hs', Hb'. split.
      * by apply (same_state_trans _ w').
      * by apply (no_new_ban_trans _ (log w')).
    + destruct (abstains_step c u _ (world s) Ht Hrow) as (Hq & Hs & Hb).
      destruct (step env (timeout_co s) (world s)) as [q w'] eqn:E.
      simpl in Hq, Hs, Hb.
      destruct (IH (mkPair (answer_co s) q w')) as [Hs' Hb'];
        [done | by left | simpl; destruct Hs as (-> & _); done |].
      simpl in Hs', Hb'. split.
      * by apply (same_state_trans _ w').
      * by apply (no_new_ban_trans _ (log w')).
Qed.

End RaceFacts.

Section SoloFacts.
Import Bot Race.
Variable env : Env.

Lemma interleave_cons t sched s :
  interleave env (t :: sched) s = interleave env sched (resume env t s).
Proof. done. Qed.

Lemma interleave_only_answer sched s :
  Forall (eq Answer) sched ->
  interleave env sched s
  = mkPair (solo env (length sched) (answer_co s) (world s)).1
           (timeout_co s)
           (solo env (length sched) (answer_co s) (world s)).2.
Proof.
  intros Hall. revert s. induction Hall as [|t sched <- _ IH]; intros s.
  - by destruct s.
  - rewrite interleave_cons, IH. cbn [length solo resume].
    by destruct (step env (answer_co s) (world s)).
Qed.

Lemma interleave_only_timeout sched s :
  Forall (eq Timeout) sched ->
  interleave env sched s
  = mkPair (answer_co s)
           (solo env (length sched) (timeout_co s) (world s)).1
           (solo env (length sched) (timeout_co s) (world s)).2.
Proof.
  intros Hall. revert s. induction Hall as [|t sched <- _ IH]; intros s.
  - by destruct s.
  - rewrite interleave_cons, IH. cbn [length solo resume].
    by destruct (step env (timeout_co s) (world s)).
Qed.

Lemma solo_quiet n p w :
  quiet p ->
  quiet (solo env n p w).1 /\ same_state w (solo env n p w).2.
Proof.
  revert p w. induction n as [|n IH]; intros p w Hq; [done|].
  cbn [solo]. destruct (quiet_step env p w Hq) as (Hq' & Hs & _).
  destruct (step env p w) as [p' w']. simpl in Hq', Hs.
  destruct (IH p' w' Hq') as [Hq'' Hs'']. split; [done|].
  by apply (same_state_trans _ w').
Qed.

Lemma one_write_step c u st p w :
  one_write c u st p ->
  (one_write c u st (step env p w).1 /\ same_state w (step env p w).2) \/
  (quiet (step env p w).1 /\
   writes (step env p w).2 = (writes w ++ [Db.OpUpdateStatus c u st])%list /\
   table (step env p w).2 = Db.update_status c u st (table w)).
Proof.
  intros [p' Hq|k Hk|cl k Hk|c' u' k Hk].
  - left. destruct (quiet_step env p' w Hq) as (Hq' & Hs & _).
    split; [by apply ow_quiet | done].
  - right. by simpl.
  - left. simpl. split; [apply Hk | done].
  - left. simpl. split; [apply Hk | done].
Qed.

(** Resumed alone, a coroutine with one write either has not written
    yet, or has written once and is quiet. *)
Lemma solo_one_write c u st n p w :
  one_write c u st p ->
  (one_write c u st (solo env n p w).1 /\ same_state w (solo env n p w).2) \/
  (quiet (solo env n p w).1 /\
   writes (solo env n p w).2 = (writes w ++ [Db.OpUpdateStatus c u st])%list /\
   table (solo env n p w).2 = Db.update_status c u st (table w)).
Proof.
  revert p w. induction n as [|n IH]; intros p w Hp; [by left|].
  cbn [solo]. destruct (one_write_step c u st p w Hp) as [[Hp' Hs]|(Hq & Hw & Ht)];
    destruct (step env p w) as [p' w']; simpl in *.
  - destruct (IH p' w' Hp') as [[Hp'' Hs'']|(Hq & Hw & Ht)].
    + left. split; [done|]. by apply (same_state_trans _ w').
    + right. destruct Hs as (Ht' & Hw' & _). split_and!; [done| |]; congruence.
  - right. destruct (solo_quiet n p' w' Hq) as (Hq' & Ht' & Hw' & _).
    split_and!; [done| |]; congruence.
Qed.

Lemma answer_tail_quiet cb text :
  quiet (seq (await_ (CallbackAnswer text true)) (remove_keyboard cb)).
Proof.
  apply quiet_api; [apply not_ban_callback|]. intros [v|e]; simpl; [|constructor].
  unfold remove_keyboard. destruct (has_message cb); simpl; [|constructor].
  apply quiet_api; [apply not_ban_edit|]. intros [v'|e']; constructor.
Qed.

Lemma answer_one_write cb c u a :
  one_write c u "solved" (answer_submission cb c u a).
Proof.
  unfold answer_submission. apply ow_get. intros [r|].
  2:{ apply ow_quiet, quiet_await_, not_ban_callback. }
  case_decide; [|apply ow_quiet, quiet_await_, not_ban_callback].
  case_decide; [|apply ow_quiet, quiet_await_, not_ban_callback].
  unfold lift_restriction, await. simpl. apply ow_api.
  intros [[| |ty]|e]; simpl; try (apply ow_set, answer_tail_quiet).
  case_decide; simpl; [|apply ow_set, answer_tail_quiet].
  apply ow_api. intros [v|e]; simpl; apply ow_set, answer_tail_quiet.
Qed.

Lemma answer_abstains cb c u a : abstains c u (answer_submission cb c u a).
Proof.
  right. eexists. split; [reflexivity|]. intros [r|] Hrow; simpl in *.
  - rewrite decide_False by done. apply quiet_await_, not_ban_callback.
  - apply quiet_await_, not_ban_callback.
Qed.

Lemma timeout_one_write c u : one_write c u "kicked" (timeout_check c u).
Proof.
  unfold timeout_check. apply ow_get. intros [r|]; [|apply ow_quiet; constructor].
  case_decide; [|apply ow_quiet; constructor].
  unfold await. simpl. apply ow_api. intros [v|e]; simpl.
  - apply ow_set. apply quiet_api; [apply not_ban_get_member|].
    intros m. apply quiet_api; [apply not_ban_send|].
    intros [v'|e']; simpl; [constructor|].
    apply quiet_api; [apply not_ban_send|]. intros [v''|e'']; constructor.
  - apply ow_quiet. apply quiet_api; [apply not_ban_send|].
    intros [v'|e']; constructor.
Qed.

Lemma timeout_abstains c u : abstains c u (timeout_check c u).
Proof.
  right. eexists. split; [reflexivity|]. intros [r|] Hrow; simpl in *.
  - rewrite decide_False by done. constructor.
  - constructor.
Qed.

Lemma not_pending_update_status c u st t :
  st <> "pending" ->
  not_pending (Db.get_captcha c u (Db.update_status c u st t)).
Proof.
  intros Hst. rewrite get_update_status_same.
  by destruct (Db.get_captcha c u t).
Qed.

Lemma app_singleton_neq {A} (l : list A) x : l <> (l ++ [x])%list.
Proof.
  intros H. apply (f_equal length) in H. rewrite length_app in H. simpl in H. lia.
Qed.

End SoloFacts.

(** C7, the part that holds, for callback data the platform can carry
    and a key of the table: whichever of the two coroutines commits its
    status write before the other has read the row makes the other one
    abandon: once the answer has written 'solved' and the timeout check
    has not yet been resumed, the timeout check asks for no removal and
    writes nothing, in every continuation of the schedule; once the
    timeout check has written 'kicked' and the answer has not yet been
    resumed, the answer writes nothing; and when the row is not pending
    at the start neither writes nor removes.  In each of these schedules
    the history gains at most one final write. *)
Theorem first_write_wins :
  forall (env : Bot.Env) (cb : Bot.CallbackQuery) (d : string) (c u : Z)
         (a : string) (w : Bot.World) (s1 s2 : list Race.turn),
    Bot.data cb = Some d ->
    Bot.deliverable d ->
    Bot.parse_payload d = Some (c, u, a) ->
    Db.storable c ->
    Db.storable u ->
    Bot.from_user_id cb = u ->
    let start :=
      Race.mkPair (Bot.on_captcha_answer cb) (Bot.timeout_check c u) w in
    let st1 := Race.interleave env s1 start in
    let st2 := Race.interleave env s2 st1 in
    (Forall (eq Race.Answer) s1 ->
     Bot.writes (Race.world st1)
     = (Bot.writes w ++ [Db.OpUpdateStatus c u "solved"])%list ->
     Bot.writes (Race.world st2)
     = (Bot.writes w ++ [Db.OpUpdateStatus c u "solved"])%list /\
     Bot.table (Race.world st2) = Db.update_status c u "solved" (Bot.table w) /\
     Race.no_new_ban (Bot.log (Race.world st1)) (Bot.log (Race.world st2))) /\
    (Forall (eq Race.Timeout) s1 ->
     Bot.writes (Race.world st1)
     = (Bot.writes w ++ [Db.OpUpdateStatus c u "kicked"])%list ->
     Bot.writes (Race.world st2)
     = (Bot.writes w ++ [Db.OpUpdateStatus c u "kicked"])%list /\
     Bot.table (Race.world st2) = Db.update_status c u "kicked" (Bot.table w) /\
     Race.no_new_ban (Bot.log (Race.world st1)) (Bot.log (Race.world st2))) /\
    (Race.not_pending (Db.get_captcha c u (Bot.table w)) ->
     let st := Race.interleave env s2 start in
     Bot.same_state w (Race.world st) /\
     Race.no_new_ban (Bot.log w) (Bot.log (Race.world st))).
Proof.
  intros env cb d c u a w s1 s2 Hd _ Hp _ _ Hfrom start st1 st2.
  assert (Bot.on_captcha_answer cb = Bot.answer_submission cb c u a) as Hans.
  { rewrite (on_captcha_answer_parsed cb d c u a Hd Hp). by rewrite decide_True. }
  subst st2 st1 start. rewrite Hans. split_and!.
  - intros Hall Hw. rewrite (interleave_only_answer env s1 _ Hall) in Hw |- *.
    cbn [Race.answer_co Race.timeout_co Race.world] in Hw |- *.
    destruct (solo_one_write env c u "solved" (length s1)
                (Bot.answer_submission cb c u a) w (answer_one_write cb c u a))
      as [[_ (_ & Hw' & _)]|(Hq & _ & Ht)].
    { rewrite Hw' in Hw. by apply app_singleton_neq in Hw. }
    match goal with |- context [Race.interleave env s2 ?s] =>
      destruct (interleave_abstains env c u s2 s) as [(Ht2 & Hw2 & _) Hb]
    end.
    + by left.
    + apply timeout_abstains.
    + cbn [Race.world]. rewrite Ht. by apply not_pending_update_status.
    + cbn [Race.world] in Ht2, Hw2, Hb. split_and!; [|by rewrite Ht2|done].
      by rewrite Hw2.
  - intros Hall Hw. rewrite (interleave_only_timeout env s1 _ Hall) in Hw |- *.
    cbn [Race.answer_co Race.timeout_co Race.world] in Hw |- *.
    destruct (solo_one_write env c u "kicked" (length s1)
                (Bot.timeout_check c u) w (timeout_one_write c u))
      as [[_ (_ & Hw' & _)]|(Hq & _ & Ht)].
    { rewrite Hw' in Hw. by apply app_singleton_neq in Hw. }
    match goal with |- context [Race.interleave env s2 ?s] =>
      destruct (interleave_abstains env c u s2 s) as [(Ht2 & Hw2 & _) Hb]
    end.
    + apply answer_abstains.
    + by left.
    + cbn [Race.world]. rewrite Ht. by apply not_pending_update_status.
    + cbn [Race.world] in Ht2, Hw2, Hb. split_and!; [|by rewrite Ht2|done].
      by rewrite Hw2.
  - intros Hrow.
    apply (interleave_abstains env c u s2
             (Race.mkPair (Bot.answer_submission cb c u a)
                          (Bot.timeout_check c u) w));
      [apply answer_abstains | apply timeout_abstains | done].
Qed.

(** * Concrete runs *)

Section Witnesses.
Import Bot Race Sample.

Lemma walking_ok : Gen.entropy_ok walking.
Proof.
  split.
  - intros i lo hi Hle. simpl.
    pose proof (Z.mod_pos_bound (Z.of_nat i * 7) (hi - lo + 1)). lia.
  - done.
Qed.

Lemma stuck_no_decoys c i n : (size (Gen.decoys c (Gen.draws stuck i n)) <= 1)%nat.
Proof.
  assert (Gen.decoys c (Gen.draws stuck i n) ⊆ ({[ 2 ]} : gset Z)) as Hsub.
  { intros x Hx. unfold Gen.decoys in Hx.
    apply elem_of_difference in Hx as [Hx _].
    apply elem_of_list_to_set in Hx. unfold Gen.draws in Hx.
    apply list_elem_of_fmap in Hx as (k & -> & _). simpl. set_solver. }
  apply subseteq_size in Hsub. by rewrite size_singleton in Hsub.
Qed.

End Witnesses.

(** C1 at a pending challenge with answer "9", on a platform that
    refuses every request: the wrong value "5" leaves the row pending,
    the right value sets it to solved, and a second press is inactive. *)
Lemma answer_submission_cases_witness :
  let wrong := Sample.press "captcha:-100:5:5" 5 in
  let right := Sample.press "captcha:-100:5:9" 5 in
  let w1 := (Bot.run Sample.env_bad (Bot.on_captcha_answer wrong)
               Sample.pending_world).2 in
  let w2 := (Bot.run Sample.env_bad (Bot.on_captcha_answer right) w1).2 in
  let w3 := (Bot.run Sample.env_bad (Bot.on_captcha_answer right) w2).2 in
  Bot.table w1 = [Sample.row_with "pending"] /\
  Bot.table w2 = [Sample.row_with "solved"] /\
  Bot.writes w2 = [Db.OpUpdateStatus (-100) 5 "solved"] /\
  Bot.writes w3 = Bot.writes w2.
Proof.
  intros wrong right w1 w2 w3.
  assert (Db.storable (-100) /\ Db.storable 5) as [Hc Hu]
    by (unfold Db.storable; lia).
  destruct (answer_submission_cases Sample.env_bad wrong "captcha:-100:5:5"
              (-100) 5 "5" Sample.pending_world) as (_ & Hwrong & _);
    [reflexivity | unfold Bot.deliverable; simpl; lia | reflexivity
    | exact Hc | exact Hu | reflexivity |].
  destruct (Hwrong (Sample.row_with "pending")) as ((Ht1 & Hw1 & _) & _);
    [reflexivity | reflexivity | discriminate |].
  destruct (answer_submission_cases Sample.env_bad right "captcha:-100:5:9"
              (-100) 5 "9" w1) as (_ & _ & Hright);
    [reflexivity | unfold Bot.deliverable; simpl; lia | reflexivity
    | exact Hc | exact Hu | reflexivity |].
  destruct (Hright (Sample.row_with "pending")) as (Ht2 & Hw2 & _ & _ & Hs3 & _);
    [vm_compute; reflexivity | reflexivity | reflexivity |].
  destruct Hs3 as (_ & Hw3 & _).
  split_and!.
  - exact Ht1.
  - etrans; [exact Ht2|]. vm_compute. reflexivity.
  - etrans; [exact Hw2|]. vm_compute. reflexivity.
  - exact Hw3.
Defined.


(** C3 on the walking source: the generator returns "1 + 8 = ?" with
    the answer "9" among four distinct options. *)
Lemma generate_captcha_sound_witness :
  Gen.entropy_ok Sample.walking /\
  Gen.generate_captcha 10 Sample.walking 0
  = Some ("1 + 8 = ?", "9", ["9"; "13"; "16"; "6"], 6%nat) /\
  exists a b : Z,
    1 <= a <= 9 /\ 1 <= b <= 9 /\
    "1 + 8 = ?" = Gen.question_of a b /\
    "9" = Gen.str (a + b) /\
    length ["9"; "13"; "16"; "6"] = 4%nat /\
    NoDup ["9"; "13"; "16"; "6"] /\
    "9" ∈ ["9"; "13"; "16"; "6"] /\
    forall o, o ∈ ["9"; "13"; "16"; "6"] -> o <> "9" ->
      exists d : Z, 2 <= d <= 18 /\ d <> a + b /\ o = Gen.str d.
Proof.
  split; [exact walking_ok|]. split; [vm_compute; reflexivity|].
  apply (generate_captcha_sound 10 Sample.walking 0 "1 + 8 = ?" "9"
           ["9"; "13"; "16"; "6"] 6 walking_ok).
  vm_compute. reflexivity.
Defined.

(** C4 as stated fails: the user's row exists with status 'kicked', and
    the message makes the handler save a new pending challenge, send the
    prompt and create the timeout task. *)
Lemma message_after_kick_reissues :
  let res := Bot.run Sample.env_ok (Bot.on_any_message Sample.text_message)
               Sample.kicked_world in
  Db.get_captcha (-100) 5 (Bot.table Sample.kicked_world)
  = Some (Sample.row_with "kicked") /\
  Bot.writes res.2 = [Db.OpSave (-100) 5 "1 + 8 = ?" "9" "pending" 1000] /\
  Bot.table res.2 = [Sample.row_with "pending"] /\
  Bot.spawned res.2 = [(-100, 5, 60)] /\
  Bot.calls (Bot.log res.2)
  = [Bot.DeleteMessage;
     Bot.RestrictChatMember (-100) 5 Bot.restricted;
     Bot.SendMessage (-100) (Bot.prompt_text "@five" "1 + 8 = ?")
       (Some (Bot.build_captcha_keyboard (-100) 5 ["9"; "13"; "16"; "6"]))].
Proof. vm_compute. repeat split; reflexivity. Qed.

(** C4 on a pending row: only the deletion is asked for; on the kicked
    row the challenge is issued again. *)
Lemma on_any_message_cases_witness :
  Bot.run Sample.env_ok (Bot.on_any_message Sample.text_message)
    Sample.pending_world
  = (Bot.Finished,
     (Bot.do_call Sample.env_ok Bot.DeleteMessage Sample.pending_world).2) /\
  Bot.run Sample.env_ok (Bot.on_any_message Sample.text_message)
    Sample.solved_world
  = (Bot.Finished, Sample.solved_world) /\
  Bot.writes
    (Bot.run Sample.env_ok (Bot.on_any_message Sample.text_message)
       Sample.kicked_world).2
  = [Db.OpSave (-100) 5 "1 + 8 = ?" "9" "pending" 1000].
Proof.
  destruct (on_any_message_cases Sample.env_ok Sample.text_message Sample.five
              Sample.pending_world eq_refl eq_refl) as (_ & Hpending & _).
  destruct (on_any_message_cases Sample.env_ok Sample.text_message Sample.five
              Sample.solved_world eq_refl eq_refl) as (Hsolved & _ & _).
  destruct (on_any_message_cases Sample.env_ok Sample.text_message Sample.five
              Sample.kicked_world eq_refl eq_refl) as (_ & _ & Hkicked).
  split_and!.
  - apply (Hpending (Sample.row_with "pending")); reflexivity.
  - apply (Hsolved (Sample.row_with "solved")); reflexivity.
  - destruct Hkicked as [_ Hissue].
    { right. exists (Sample.row_with "kicked"). by split_and!. }
    destruct (Hissue "1 + 8 = ?" "9" ["9"; "13"; "16"; "6"] 6%nat)
      as (_ & _ & Hw & _); [vm_compute; reflexivity|].
    exact Hw.
Defined.


(** C6: user 6 presses the right answer of user 5 and nothing is
    written. *)
Lemma foreign_answer_rejected_witness :
  let w' := (Bot.run Sample.env_ok
               (Bot.on_captcha_answer (Sample.press "captcha:-100:5:9" 6))
               Sample.pending_world).2 in
  Bot.table w' = [Sample.row_with "pending"] /\
  Bot.writes w' = [] /\
  Bot.calls (Bot.log w') = [Bot.CallbackAnswer "Эта капча не для тебя." true].
Proof.
  intros w'.
  destruct (foreign_answer_rejected Sample.env_ok
              (Sample.press "captcha:-100:5:9" 6) "captcha:-100:5:9"
              (-100) 5 "9" Sample.pending_world)
    as ((Ht & Hw & _) & Hcalls);
    [reflexivity | unfold Bot.deliverable; simpl; lia | reflexivity
    | discriminate |].
  split_and!; [exact Ht | exact Hw | exact Hcalls].
Defined.

(** C7 as stated fails: the timeout check reads 'pending', the answer
    then runs up to its write of 'solved', and the timeout check goes on
    to remove the user and to write 'kicked': two final writes. *)
Lemma both_transitions_happen :
  let s := Race.interleave Sample.env_ok
             [Race.Timeout; Race.Answer; Race.Answer; Race.Answer;
              Race.Answer; Race.Timeout; Race.Timeout]
             (Race.mkPair
                (Bot.on_captcha_answer (Sample.press "captcha:-100:5:9" 5))
                (Bot.timeout_check (-100) 5) Sample.pending_world) in
  Race.terminal_writes (Race.world s)
  = [Db.OpUpdateStatus (-100) 5 "solved"; Db.OpUpdateStatus (-100) 5 "kicked"] /\
  Bot.calls (Bot.log (Race.world s))
  = [Bot.GetChat (-100);
     Bot.RestrictChatMember (-100) 5 Bot.unrestricted;
     Bot.BanChatMember (-100) 5] /\
  Bot.table (Race.world s) = [Sample.row_with "kicked"].
Proof. vm_compute. repeat split; reflexivity. Qed.

(** C7 when the answer is resumed four times first: its write of
    'solved' is in, and the rest of the schedule adds no write. *)
Lemma first_write_wins_witness :
  let start :=
    Race.mkPair (Bot.on_captcha_answer (Sample.press "captcha:-100:5:9" 5))
                (Bot.timeout_check (-100) 5) Sample.pending_world in
  let s1 := [Race.Answer; Race.Answer; Race.Answer; Race.Answer] in
  let s2 := [Race.Timeout; Race.Timeout; Race.Answer; Race.Timeout;
             Race.Answer] in
  let st2 := Race.interleave Sample.env_ok s2
               (Race.interleave Sample.env_ok s1 start) in
  Bot.writes (Race.world st2) = [Db.OpUpdateStatus (-100) 5 "solved"] /\
  Bot.table (Race.world st2) = [Sample.row_with "solved"].
Proof.
  intros start s1 s2 st2.
  destruct (first_write_wins Sample.env_ok (Sample.press "captcha:-100:5:9" 5)
              "captcha:-100:5:9" (-100) 5 "9" Sample.pending_world s1 s2)
    as (Hfirst & _ & _);
    [reflexivity | unfold Bot.deliverable; simpl; lia | reflexivity
    | unfold Db.storable; lia | unfold Db.storable; lia | reflexivity |].
  destruct Hfirst as (Hw & Ht & _).
  - repeat constructor.
  - vm_compute. reflexivity.
  - split; [exact Hw | exact Ht].
Defined.

(** C8: a second save under the key of a stored row replaces it and adds
    no row. *)
Lemma save_captcha_upsert_witness :
  let t := Db.run_ops [Db.OpSave 1 2 "1 + 1 = ?" "2" "kicked" 10;
                       Db.OpSave 1 3 "2 + 2 = ?" "4" "pending" 11]
             (Db.init_db None) in
  let t' := Db.save_captcha 1 2 "3 + 4 = ?" "7" "pending" 20 t in
  is_Some (Db.get_captcha 1 2 t) /\
  length t' = length t /\
  Db.get_captcha 1 2 t' = Some (Db.mkRow 1 2 "3 + 4 = ?" "7" 20 "pending") /\
  Db.get_captcha 1 3 t' = Db.get_captcha 1 3 t.
Proof.
  intros t t'.
  destruct (save_captcha_upsert
              [Db.OpSave 1 2 "1 + 1 = ?" "2" "kicked" 10;
               Db.OpSave 1 3 "2 + 2 = ?" "4" "pending" 11]
              1 2 "3 + 4 = ?" "7" "pending" 20)
    as (_ & _ & Hget & Hlen & _ & Hother & _).
  assert (is_Some (Db.get_captcha 1 2 t)) as Hsome by (vm_compute; eauto).
  split_and!; [exact Hsome | exact (Hlen Hsome) | exact Hget |].
  apply Hother. discriminate.
Defined.

(** C9: on a missing key the table comes back as it was; on a stored
    key only the status of that row changes. *)
Lemma update_status_frame_witness :
  let t := [Db.mkRow 1 2 "1 + 1 = ?" "2" 10 "pending";
            Db.mkRow 1 3 "2 + 2 = ?" "4" 11 "pending"] in
  Db.get_captcha 7 7 t = None /\
  Db.update_status 7 7 "solved" t = t /\
  Db.get_captcha 1 3 (Db.update_status 1 2 "solved" t) = Db.get_captcha 1 3 t.
Proof.
  intros t.
  destruct (update_status_frame 7 7 "solved" t) as (Habsent & _).
  destruct (update_status_frame 1 2 "solved" t) as (_ & _ & _ & Hother & _).
  split_and!; [reflexivity | apply Habsent; reflexivity |].
  apply Hother. discriminate.
Defined.

(** C10: on the walking source four draws give three decoys and the
    generator returns; on the stuck source it never does. *)
Lemma decoy_loop_termination_witness :
  (3 <= size (Gen.decoys 9 (Gen.draws Sample.walking 2 4)))%nat /\
  is_Some (Gen.generate_captcha 10 Sample.walking 0) /\
  (forall n, (size (Gen.decoys 2 (Gen.draws Sample.stuck 2 n)) < 3)%nat) /\
  (forall fuel, Gen.generate_captcha fuel Sample.stuck 0 = None).
Proof.
  assert (3 <= size (Gen.decoys 9 (Gen.draws Sample.walking 2 4)))%nat as H3
    by (vm_compute; lia).
  assert (forall n, (size (Gen.decoys 2 (Gen.draws Sample.stuck 2 n)) < 3)%nat)
    as Hstuck.
  { intros n. pose proof (stuck_no_decoys 2 2 n). lia. }
  split_and!; [exact H3 | | exact Hstuck |].
  - destruct (decoy_loop_termination Sample.walking 0) as (Hterm & _).
    apply (Hterm 4%nat H3 10%nat). lia.
  - intros fuel.
    destruct (decoy_loop_termination Sample.stuck 0) as (_ & Hloop & _).
    apply (Hloop Hstuck fuel).
Defined.

(** * Further properties of the store *)

Section DbMore.
Import Db.

Lemma get_captcha_None c u t :
  get_captcha c u t = None <-> rows_for c u t = [].
Proof.
  rewrite get_captcha_rows_for. by destruct (rows_for c u t).
Qed.

Lemma delete_captcha_absent c u t :
  get_captcha c u t = None -> delete_captcha c u t = t.
Proof.
  unfold get_captcha, delete_captcha. induction t as [|r t IH]; simpl; [done|].
  destruct (matches c u r); simpl; [done|]. intros H. by rewrite IH.
Qed.

Lemma get_delete_same c u t : get_captcha c u (delete_captcha c u t) = None.
Proof.
  unfold get_captcha, delete_captcha. induction t as [|r t IH]; simpl; [done|].
  destruct (matches c u r) eqn:E; simpl; [done|]. by rewrite E.
Qed.

Lemma get_delete_other c u c' u' t :
  (c', u') <> (c, u) ->
  get_captcha c' u' (delete_captcha c u t) = get_captcha c' u' t.
Proof.
  intros Hne. unfold get_captcha, delete_captcha.
  induction t as [|r t IH]; simpl; [done|].
  destruct (matches c u r) eqn:E; simpl.
  - by rewrite (matches_other c u c' u' r Hne E).
  - destruct (matches c' u' r); [done|apply IH].
Qed.

Lemma upsert_upsert c u q1 a1 n1 s1 q2 a2 n2 s2 t :
  upsert (mkRow c u q2 a2 n2 s2) (upsert (mkRow c u q1 a1 n1 s1) t)
  = upsert (mkRow c u q2 a2 n2 s2) t.
Proof.
  assert (forall q a n s, matches c u (mkRow c u q a n s) = true) as Hm
    by (intros; by apply matches_true).
  induction t as [|r t IH]; simpl.
  - by rewrite Hm.
  - destruct (matches c u r) eqn:E; simpl.
    + apply matches_true in E as [E1 E2]. rewrite E1, E2. by rewrite Hm.
    + rewrite E. by rewrite IH.
Qed.

Lemma update_status_no_match c u st t :
  rows_for c u t = [] -> update_status c u st t = t.
Proof. intros H. by apply update_status_absent, get_captcha_None. Qed.

Lemma update_status_upsert c u q a n s st t :
  (length (rows_for c u t) <= 1)%nat ->
  update_status c u st (upsert (mkRow c u q a n s) t)
  = upsert (mkRow c u q a n st) t.
Proof.
  assert (forall q a n s, matches c u (mkRow c u q a n s) = true) as Hm
    by (intros; by apply matches_true).
  unfold rows_for. induction t as [|r t IH]; simpl; intros Hlen.
  - by rewrite Hm.
  - destruct (matches c u r) eqn:E; simpl in *.
    + apply matches_true in E as [E1 E2]. rewrite E1, E2, Hm.
      unfold set_status. simpl. f_equal.
      apply update_status_no_match. unfold rows_for.
      destruct (List.filter (matches c u) t); [done | simpl in Hlen; lia].
    + rewrite E. f_equal. by apply IH.
Qed.

Lemma delete_upsert_fresh c u q a n s t :
  get_captcha c u t = None ->
  delete_captcha c u (upsert (mkRow c u q a n s) t) = t.
Proof.
  assert (matches c u (mkRow c u q a n s) = true) as Hm by (by apply matches_true).
  unfold get_captcha, delete_captcha. induction t as [|r t IH]; simpl.
  - by rewrite Hm.
  - destruct (matches c u r) eqn:E; simpl; [done|].
    rewrite E. simpl. intros H. by rewrite IH.
Qed.

End DbMore.

(** X1: [delete_captcha] leaves no row under its key, whatever the
    table held; the rows read under every other key are the same as
    before; on a key without a row the table comes back unchanged; and
    deleting twice is deleting once. *)
Theorem delete_captcha_effect :
  forall (c u : Z) (t : Db.Table),
    let t' := Db.delete_captcha c u t in
    Db.get_captcha c u t' = None /\
    (forall c' u', (c', u') <> (c, u) ->
       Db.get_captcha c' u' t' = Db.get_captcha c' u' t) /\
    (Db.get_captcha c u t = None -> t' = t) /\
    Db.delete_captcha c u t' = t' /\
    (length t' <= length t)%nat.
Proof.
  intros c u t t'. split_and!.
  - apply get_delete_same.
  - intros c' u' Hne. by apply get_delete_other.
  - apply delete_captcha_absent.
  - apply delete_captcha_absent, get_delete_same.
  - unfold t', Db.delete_captcha. apply List.filter_length_le.
Qed.

(** X2: two [save_captcha] on one key in a row leave the table that the
    second alone would leave: the last challenge saved wins, with its
    own question, answer, time and status. *)
Theorem save_captcha_last_wins :
  forall (c u : Z) (q1 a1 st1 : string) (now1 : Z) (q2 a2 st2 : string)
         (now2 : Z) (t : Db.Table),
    Db.save_captcha c u q2 a2 st2 now2 (Db.save_captcha c u q1 a1 st1 now1 t)
    = Db.save_captcha c u q2 a2 st2 now2 t.
Proof. intros. apply upsert_upsert. Qed.

(** X3: on a table that respects the primary key, [save_captcha]
    followed by [update_status] on the same key gives the table that
    saving with the new status gives. *)
Theorem update_status_after_save :
  forall (c u : Z) (q a st0 st : string) (now : Z) (t : Db.Table),
    Db.pk_ok t ->
    Db.update_status c u st (Db.save_captcha c u q a st0 now t)
    = Db.save_captcha c u q a st now t.
Proof.
  intros c u q a st0 st now t Hok. apply update_status_upsert, Hok.
Qed.

Lemma update_status_after_save_witness :
  let t := Db.run_ops [Db.OpSave 1 3 "2 + 2 = ?" "4" "pending" 11;
                       Db.OpSave 1 2 "1 + 1 = ?" "2" "kicked" 10]
             (Db.init_db None) in
  Db.pk_ok t /\
  Db.update_status 1 2 "solved" (Db.save_captcha 1 2 "3 + 4 = ?" "7" "pending" 20 t)
  = Db.save_captcha 1 2 "3 + 4 = ?" "7" "solved" 20 t.
Proof.
  intros t.
  assert (Db.pk_ok t) as Hok by (apply pk_ok_run_ops, pk_ok_nil).
  split; [exact Hok|].
  apply (update_status_after_save 1 2 "3 + 4 = ?" "7" "pending" "solved" 20 t Hok).
Defined.

(** X4: saving a challenge under a key that had no row and deleting it
    again gives back the table as it was. *)
Theorem delete_after_save_fresh :
  forall (c u : Z) (q a st : string) (now : Z) (t : Db.Table),
    Db.get_captcha c u t = None ->
    Db.delete_captcha c u (Db.save_captcha c u q a st now t) = t.
Proof. intros c u q a st now t H. by apply delete_upsert_fresh. Qed.

Lemma delete_after_save_fresh_witness :
  let t := [Db.mkRow 1 3 "2 + 2 = ?" "4" 11 "pending"] in
  Db.get_captcha 1 2 t = None /\
  Db.delete_captcha 1 2 (Db.save_captcha 1 2 "3 + 4 = ?" "7" "pending" 20 t) = t.
Proof.
  intros t. split; [reflexivity|].
  apply (delete_after_save_fresh 1 2 "3 + 4 = ?" "7" "pending" 20 t).
  reflexivity.
Defined.

(** * The payload of a button read back *)

Section PayloadFacts.
Import Aux.

Lemma string_app_empty_r (s : string) : s ++ "" = s.
Proof.
  induction s as [|a s IH]; [done|].
  change (String a (s ++ "") = String a s). by rewrite IH.
Qed.

Lemma rev_app_rev_app (s a b : string) :
  String.rev_app (String.rev_app s a) b = String.rev_app a (s ++ b).
Proof.
  revert a b. induction s as [|ch s IH]; intros a b; simpl; [done|].
  by rewrite IH.
Qed.

Lemma string_rev_involutive (s : string) : String.rev (String.rev s) = s.
Proof.
  unfold String.rev. rewrite rev_app_rev_app. exact (string_app_empty_r s).
Qed.

Lemma all_ascii_rev_app P s a :
  all_ascii P (String.rev_app s a) = all_ascii P s && all_ascii P a.
Proof.
  revert a. induction s as [|ch s IH]; intros a; simpl; [done|].
  rewrite IH. simpl. destruct (P ch), (all_ascii P s); simpl; auto.
  all: by destruct (all_ascii P a).
Qed.

Lemma all_ascii_rev P s : all_ascii P (String.rev s) = all_ascii P s.
Proof.
  unfold String.rev. rewrite all_ascii_rev_app. simpl. apply andb_true_r.
Qed.

Lemma all_ascii_app P s1 s2 :
  all_ascii P (s1 ++ s2) = all_ascii P s1 && all_ascii P s2.
Proof.
  induction s1 as [|ch s1 IH]; simpl; [done|]. rewrite IH. apply andb_assoc.
Qed.

Lemma lstrip_id s : all_ascii not_space s = true -> Py.lstrip s = s.
Proof.
  destruct s as [|a s]; simpl; [done|]. unfold not_space.
  by destruct (Py.is_space a).
Qed.

Lemma strip_id s : all_ascii not_space s = true -> Py.strip s = s.
Proof.
  intros H. unfold Py.strip. rewrite (lstrip_id s H).
  rewrite lstrip_id by (by rewrite all_ascii_rev).
  apply string_rev_involutive.
Qed.

Lemma digit_cases (x : N) :
  (x < 10)%N ->
  x = 0%N \/ x = 1%N \/ x = 2%N \/ x = 3%N \/ x = 4%N \/
  x = 5%N \/ x = 6%N \/ x = 7%N \/ x = 8%N \/ x = 9%N.
Proof. lia. Qed.

Lemma pretty_char_digit (x : N) :
  (x < 10)%N ->
  Py.digit_val (pretty_N_char x) = Some (Z.of_N x) /\
  not_space (pretty_N_char x) = true /\
  not_colon (pretty_N_char x) = true.
Proof.
  intros H. destruct (digit_cases x H) as [->|[->|[->|[->|[->|[->|[->|[->|[->| ->]]]]]]]]];
    by vm_compute.
Qed.

(** The digits that [pretty] writes in front of [s] are read back by
    [digits] as the number, continued with [s]. *)
Lemma digits_pretty_go (x : N) (s : string) (acc : Z) (b : bool) :
  (0 < x)%N ->
  exists k : nat,
    Py.digits acc b (pretty_N_go x s)
    = Py.digits (acc * 10 ^ Z.of_nat k + Z.of_N x) true s.
Proof.
  revert s. induction (N.lt_wf_0 x) as [x _ IH]; intros s Hx.
  rewrite pretty_N_go_step by done.
  assert (x `mod` 10 < 10)%N as Hm by (apply N.mod_lt; lia).
  destruct (pretty_char_digit _ Hm) as (Hd & _ & _).
  assert (Z.of_N x = 10 * Z.of_N (x `div` 10) + Z.of_N (x `mod` 10)) as Hx10.
  { rewrite N2Z.inj_div, N2Z.inj_mod. simpl. apply Z.div_mod. lia. }
  destruct (decide (x `div` 10 = 0)%N) as [E|E].
  - rewrite E, pretty_N_go_0. exists 1%nat. simpl. rewrite Hd.
    f_equal. rewrite E in Hx10. simpl in Hx10. lia.
  - destruct (IH (x `div` 10)%N) with (s := String (pretty_N_char (x `mod` 10)) s)
      as [k Hk].
    + apply N.div_lt; lia.
    + lia.
    + exists (S k). rewrite Hk. simpl. rewrite Hd. f_equal.
      rewrite Nat2Z.inj_succ, Z.pow_succ_r by lia. lia.
Qed.

Lemma pretty_go_chars P (x : N) (s : string) :
  (forall d, (d < 10)%N -> P (pretty_N_char d) = true) ->
  all_ascii P s = true ->
  all_ascii P (pretty_N_go x s) = true.
Proof.
  intros HP. revert s. induction (N.lt_wf_0 x) as [x _ IH]; intros s Hs.
  destruct (decide (x = 0)%N) as [->|Hx]; [by rewrite pretty_N_go_0|].
  rewrite pretty_N_go_step by lia. apply IH.
  - apply N.div_lt; lia.
  - simpl. rewrite HP by (apply N.mod_lt; lia). done.
Qed.

Lemma pretty_go_first (x : N) (s : string) :
  (0 < x)%N ->
  exists d rest, (d < 10)%N /\ pretty_N_go x s = String (pretty_N_char d) rest.
Proof.
  revert s. induction (N.lt_wf_0 x) as [x _ IH]; intros s Hx.
  rewrite pretty_N_go_step by done.
  destruct (decide (x `div` 10 = 0)%N) as [E|E].
  - rewrite E, pretty_N_go_0. eexists _, _. split; [|done]. apply N.mod_lt. lia.
  - apply IH.
    + apply N.div_lt; lia.
    + by apply N.neq_0_lt_0.
Qed.

Lemma str_chars P (z : Z) :
  (forall d, (d < 10)%N -> P (pretty_N_char d) = true) ->
  P "-"%char = true ->
  all_ascii P (Gen.str z) = true.
Proof.
  intros HP Hminus. unfold Gen.str, pretty, pretty_Z.
  destruct z as [|p|p].
  - change (P (pretty_N_char 0) && true = true). by rewrite HP by lia.
  - unfold pretty, pretty_positive, pretty, pretty_N.
    rewrite decide_False by done. by apply pretty_go_chars.
  - simpl. rewrite Hminus. simpl.
    unfold pretty, pretty_positive, pretty, pretty_N.
    rewrite decide_False by done. by apply pretty_go_chars.
Qed.

Lemma str_no_space z : all_ascii not_space (Gen.str z) = true.
Proof.
  apply str_chars; [|done]. intros d Hd. by apply pretty_char_digit.
Qed.

Lemma str_no_colon z : all_ascii not_colon (Gen.str z) = true.
Proof.
  apply str_chars; [|done]. intros d Hd. by apply pretty_char_digit.
Qed.

Lemma int_pretty_pos (p : positive) :
  Py.digits 0 false (pretty_N_go (N.pos p) "") = Some (Z.pos p).
Proof.
  destruct (digits_pretty_go (N.pos p) "" 0 false) as [k ->]; [lia|].
  simpl. f_equal.
Qed.

(** [int(str(z)) == z]. *)
Lemma int_str (z : Z) : Py.int (Gen.str z) = Some z.
Proof.
  unfold Py.int. rewrite strip_id by apply str_no_space.
  unfold Gen.str, pretty, pretty_Z. destruct z as [|p|p].
  - by vm_compute.
  - unfold pretty, pretty_positive, pretty, pretty_N.
    rewrite decide_False by done.
    destruct (pretty_go_first (N.pos p) "") as (d & rest & Hd & E); [lia|].
    pose proof (int_pretty_pos p) as Hint. rewrite E in Hint |- *.
    destruct (digit_cases d Hd) as [->|[->|[->|[->|[->|[->|[->|[->|[->| ->]]]]]]]]];
      exact Hint.
  - unfold pretty, pretty_positive, pretty, pretty_N.
    rewrite decide_False by done.
    change (Z.opp <$> Py.digits 0 false (pretty_N_go (N.pos p) "")
            = Some (Z.neg p)).
    by rewrite int_pretty_pos.
Qed.

Lemma split_max_0 s : Py.split_max 0 s = [s].
Proof. by destruct s. Qed.

Lemma split_max_field n s rest :
  all_ascii not_colon s = true ->
  Py.split_max (S n) (s ++ String ":" rest) = s :: Py.split_max n rest.
Proof.
  induction s as [|ch s IH]; simpl; [done|].
  unfold not_colon at 1. intros [Hch Hs]%andb_true_iff.
  apply negb_true_iff in Hch. rewrite Hch.
  change (Py.split_max (S n) (s ++ String ":" rest))
    with (Py.split_max (S n) (s ++ String ":" rest)).
  by rewrite (IH Hs).
Qed.

Lemma split_payload_callback_data c u answer :
  Bot.split_payload (Bot.callback_data c u answer)
  = Some (Gen.str c, Gen.str u, answer).
Proof.
  unfold Bot.split_payload, Bot.callback_data.
  change ("captcha:" ++ Gen.str c ++ ":" ++ Gen.str u ++ ":" ++ answer)
    with ("captcha" ++ String ":" (Gen.str c ++ String ":"
            (Gen.str u ++ String ":" answer))).
  rewrite split_max_field by done.
  rewrite split_max_field by apply str_no_colon.
  rewrite split_max_field by apply str_no_colon.
  by rewrite split_max_0.
Qed.

Lemma parse_callback_data c u answer :
  Bot.parse_payload (Bot.callback_data c u answer) = Some (c, u, answer).
Proof.
  unfold Bot.parse_payload.
  by rewrite split_payload_callback_data, !int_str.
Qed.

End PayloadFacts.

(** X5: the callback data that [build_captcha_keyboard] writes for a
    chat, a user and an answer is read back by [on_captcha_answer] as
    exactly that chat, that user and that answer, for all integers and
    every answer string, also one that holds ':'. *)
Theorem callback_data_round_trip :
  forall (chat_id user_id : Z) (answer : string),
    Bot.parse_payload (Bot.callback_data chat_id user_id answer)
    = Some (chat_id, user_id, answer).
Proof.
  intros c u answer. apply parse_callback_data.
Qed.

(** * The keyboard *)

Section KeyboardFacts.
Import Bot Aux.

Lemma adjust2_pairs (l : list Button) :
  (concat (adjust2 l) = l /\
   Forall (fun row => length row = 2%nat \/ length row = 1%nat) (adjust2 l) /\
   length (adjust2 l) = ((length l + 1) / 2)%nat) /\
  (forall x,
     concat (adjust2 (x :: l)) = x :: l /\
     Forall (fun row => length row = 2%nat \/ length row = 1%nat)
       (adjust2 (x :: l)) /\
     length (adjust2 (x :: l)) = ((length (x :: l) + 1) / 2)%nat).
Proof.
  induction l as [|y l [IH1 IH2]].
  - split; [by split_and!|]. intros x. split_and!; [done| |done].
    constructor; [by right | constructor].
  - split; [apply IH2|]. intros x. destruct IH1 as (Hc & Hf & Hl).
    cbn [adjust2 concat length]. split_and!.
    + simpl. by rewrite Hc.
    + constructor; [by left | done].
    + rewrite Hl. replace (S (S (length l)) + 1)%nat with (length l + 1 + 1 * 2)%nat by lia.
      rewrite Nat.div_add by lia. lia.
Qed.

End KeyboardFacts.


(** * Which handlers can remove a member *)

Section BanFacts.
Import Bot Race Aux.
Variable env : Env.

Lemma banless_seq p q : banless p -> banless q -> banless (seq p q).
Proof.
  intros Hp Hq. induction Hp; simpl; try (constructor; auto); done.
Qed.

Lemma banless_catch p h :
  banless p -> (forall e, banless (h e)) -> banless (catch p h).
Proof.
  intros Hp Hh. induction Hp; simpl; try (constructor; auto); auto.
Qed.

Lemma banless_await_ c : ~ is_ban c -> banless (await_ c).
Proof.
  intros Hc. apply banless_api; [done|]. intros [v|e]; constructor.
Qed.

Lemma quiet_banless p : quiet p -> banless p.
Proof. intros Hq. induction Hq; constructor; auto. Qed.

Lemma run_banless p w :
  banless p -> no_new_ban (log w) (log (run env p w).2).
Proof.
  intros Hp. revert w.
  induction Hp as [|e| |c u k _ IH|c u q a st k _ IH|c u st k _ IH
                   |c k Hc _ IH|k _ IH|c u t k _ IH|t k _ IH]; intros w;
    cbn [run].
  - apply no_new_ban_refl.
  - apply no_new_ban_refl.
  - apply no_new_ban_refl.
  - apply IH.
  - apply (IH (do_write _ w)).
  - apply (IH (do_write _ w)).
  - apply (no_new_ban_trans _ (log (do_call env c w).2)).
    + by apply no_new_ban_call.
    + apply (IH _ (do_call env c w).2).
  - destruct (Gen.generate_captcha _ _ _) as [[[[q a] o] j]|];
      [apply (IH _ (set_rng j w)) | apply no_new_ban_refl].
  - apply (IH (do_spawn _ w)).
  - apply (IH (do_sleep _ w)).
Qed.

Lemma banless_start_captcha_flow c ty user :
  banless (start_captcha_flow c ty user).
Proof.
  unfold start_captcha_flow. apply banless_generate. intros [[q a] opts].
  apply banless_save. apply banless_seq.
  - case_decide; [|constructor].
    apply banless_catch; [apply banless_await_, not_ban_restrict | constructor].
  - apply banless_seq; [|repeat constructor].
    apply banless_catch; [apply banless_await_, not_ban_send | constructor].
Qed.

Lemma banless_on_user_join message : banless (on_user_join message).
Proof.
  unfold on_user_join. induction (new_chat_members message) as [|user l IH];
    cbn [foldr]; [constructor|].
  destruct (is_bot user); [done|].
  apply banless_seq; [apply banless_start_captcha_flow | done].
Qed.

Lemma banless_on_any_message message : banless (on_any_message message).
Proof.
  unfold on_any_message. destruct (from_user message) as [user|]; [|constructor].
  destruct (is_bot user); [constructor|]. apply banless_get. intros row.
  destruct (has_status row "solved"); [constructor|]. apply banless_seq.
  - apply banless_catch; [apply banless_await_ | constructor].
    by intros (? & ? & ?).
  - destruct (has_status row "pending"); [constructor|].
    apply banless_start_captcha_flow.
Qed.

Lemma quiet_lift_restriction c t : quiet (lift_restriction c t).
Proof.
  unfold lift_restriction, await. simpl.
  apply quiet_api; [apply not_ban_get_chat|].
  intros [[| |ty]|e]; simpl; try constructor.
  case_decide; simpl; [|constructor].
  apply quiet_api; [apply not_ban_restrict|]. intros [v|e]; constructor.
Qed.

Lemma banless_answer_submission cb c u a : banless (answer_submission cb c u a).
Proof.
  unfold answer_submission. apply banless_get. intros [r|].
  2:{ apply banless_await_, not_ban_callback. }
  case_decide; [|apply banless_await_, not_ban_callback].
  case_decide; [|apply banless_await_, not_ban_callback].
  apply banless_seq; [apply quiet_banless, quiet_lift_restriction|].
  apply banless_set, quiet_banless, answer_tail_quiet.
Qed.

(** What [on_captcha_answer] is, by the shape of the press. *)
Lemma on_captcha_answer_shape cb :
  quiet (on_captcha_answer cb) \/
  exists d c u a,
    data cb = Some d /\ parse_payload d = Some (c, u, a) /\
    from_user_id cb = u /\
    on_captcha_answer cb = answer_submission cb c u a.
Proof.
  unfold on_captcha_answer, parse_payload.
  destruct (data cb) as [d|] eqn:Hd;
    [|left; apply quiet_await_, not_ban_callback].
  destruct d as [|ch d']; [left; apply quiet_await_, not_ban_callback|].
  destruct (split_payload (String ch d')) as [[[cs us] an]|] eqn:Hs;
    [|left; apply quiet_await_, not_ban_callback].
  destruct (Py.int cs) as [c|] eqn:Hc; [|left; constructor].
  destruct (Py.int us) as [u|] eqn:Hu; [|left; constructor].
  case_decide as Hfrom; [|left; apply quiet_await_, not_ban_callback].
  right. exists (String ch d'), c, u, an. by rewrite Hs, Hc, Hu.
Qed.

Lemma banless_on_captcha_answer cb : banless (on_captcha_answer cb).
Proof.
  destruct (on_captcha_answer_shape cb) as [Hq|(d & c & u & a & _ & _ & _ & ->)];
    [by apply quiet_banless | apply banless_answer_submission].
Qed.

Lemma run_quiet p w :
  quiet p -> same_state w (run env p w).2.
Proof.
  intros Hq. revert w. induction Hq as [|e| |c u k _ IH|c k Hc _ IH]; intros w;
    cbn [run]; [done | done | done | apply IH |].
  apply (same_state_trans _ (do_call env c w).2); [done|].
  apply (IH _ (do_call env c w).2).
Qed.


End BanFacts.

(** X7: neither the answer handler, nor the message handler, nor the
    join handler ever asks for the removal of a member, whatever the
    event, the table and the replies of the platform: every ban in the
    log after the handler was in the log before it. *)
Theorem handlers_never_ban :
  forall (env : Bot.Env) (w : Bot.World) (cb : Bot.CallbackQuery)
         (message : Bot.Message),
    Race.no_new_ban (Bot.log w)
      (Bot.log (Bot.run env (Bot.on_captcha_answer cb) w).2) /\
    Race.no_new_ban (Bot.log w)
      (Bot.log (Bot.run env (Bot.on_any_message message) w).2) /\
    Race.no_new_ban (Bot.log w)
      (Bot.log (Bot.run env (Bot.on_user_join message) w).2).
Proof.
  intros env w cb message. split_and!; apply run_banless.
  - apply banless_on_captcha_answer.
  - apply banless_on_any_message.
  - apply banless_on_user_join.
Qed.


(** * Issuing challenges *)

Section IssueFacts.
Import Bot Aux.
Variable env : Env.

Lemma get_upsert_same c u q a n s t :
  Db.get_captcha c u (Db.upsert (Db.mkRow c u q a n s) t)
  = Some (Db.mkRow c u q a n s).
Proof.
  assert (Db.matches c u (Db.mkRow c u q a n s) = true) as Hm
    by (by apply matches_true).
  unfold Db.get_captcha. induction t as [|r t IH]; simpl.
  - by rewrite Hm.
  - destruct (Db.matches c u r) eqn:E; simpl.
    + apply matches_true in E as [E1 E2]. by rewrite E1, E2, Hm.
    + by rewrite E.
Qed.

Lemma get_upsert_other c u c' u' q a n s t :
  (c', u') <> (c, u) ->
  Db.get_captcha c' u' (Db.upsert (Db.mkRow c u q a n s) t)
  = Db.get_captcha c' u' t.
Proof.
  intros Hne. rewrite !get_captcha_rows_for.
  by rewrite rows_for_upsert_other.
Qed.

Lemma generate_correct_in_options e fuel0 i q a opts j :
  Gen.entropy_ok e ->
  Gen.generate_captcha fuel0 e i = Some (q, a, opts, j) ->
  a ∈ opts.
Proof.
  intros [_ Hp] Hg. unfold Gen.generate_captcha in Hg.
  destruct (Gen.collect fuel0 e (S (S i)) _) as [[j' A]|] eqn:Hc; [|done].
  injection Hg as <- <- <- <-. apply collect_spec in Hc as (_ & Hsub & _).
  rewrite (Hp j' (elements A)). apply elem_of_elements. set_solver.
Qed.

(** [answer_submission] run to its end, by the row it reads. *)
Lemma run_answer_submission cb c u a w :
  let w' := (run env (answer_submission cb c u a) w).2 in
  match Db.get_captcha c u (table w) with
  | Some r =>
      if decide (Db.status r = "pending") then
        if decide (a = Db.answer r) then
          table w' = Db.update_status c u "solved" (table w) /\
          writes w' = (writes w ++ [Db.OpUpdateStatus c u "solved"])%list
        else same_state w w'
      else same_state w w'
  | None => same_state w w'
  end.
Proof.
  cbv zeta. unfold answer_submission. rewrite run_Get.
  destruct (Db.get_captcha c u (table w)) as [r|]; cbv beta iota.
  2:{ unfold inactive. rewrite run_await_. apply same_state_do_call. }
  case_decide; [|unfold inactive; rewrite run_await_; apply same_state_do_call].
  case_decide; [|rewrite run_await_; apply same_state_do_call].
  rewrite run_seq.
  destruct (run_lift_restriction env c u w) as (w1 & -> & (Ht1 & Hw1 & _) & _).
  rewrite run_SetStatus.
  destruct (run_acknowledge env cb "Капча пройдена, добро пожаловать в чат!"
              (do_write (Db.OpUpdateStatus c u "solved") w1))
    as [(Ht & Hw & _) _].
  rewrite Ht, Hw. cbn [table writes do_write Db.apply_op].
  by rewrite Ht1, Hw1.
Qed.

Lemma size_decoys_lower c (l : list Z) :
  NoDup l -> (length l <= S (size (Gen.decoys c l)))%nat.
Proof.
  intros Hnd. unfold Gen.decoys. rewrite size_difference_alt.
  rewrite size_list_to_set by done.
  assert (size ((list_to_set l : gset Z) ∩ {[ c ]}) <= 1)%nat.
  { rewrite <- (size_singleton (C := gset Z) c).
    apply subseteq_size. set_solver. }
  lia.
Qed.

End IssueFacts.

Section WalkingFacts.
Import Bot Aux Sample.

Lemma walking_draws_distinct (f : nat) : NoDup (Gen.draws walking f 4).
Proof.
  unfold Gen.draws. cbn [fmap list_fmap seq]. unfold walking. cbn [Gen.randint].
  change (18 - 2 + 1) with 17.
  repeat (apply NoDup_cons; split);
    rewrite ?not_elem_of_cons; try apply NoDup_nil_2;
    repeat split; try apply not_elem_of_nil;
    intros Heq; Z.div_mod_to_equations; lia.
Qed.

Lemma walking_total : gen_total env_ok.
Proof.
  intros i. apply generate_captcha_is_Some, collect_is_Some.
  exists 4%nat. split; [simpl; lia|].
  rewrite answers_after_decoys.
  pose proof (size_decoys_lower
                (Gen.randint (entropy env_ok) i 1 9
                 + Gen.randint (entropy env_ok) (S i) 1 9)
                _ (walking_draws_distinct (S (S i)))) as H.
  unfold Gen.draws in H at 1. rewrite length_fmap, length_seq in H.
  exact H.
Qed.

End WalkingFacts.

(** X9: [start_captcha_flow] never raises, whatever the platform
    replies to the restriction and to the prompt.  When the generator
    returns, the user's row is read back as the new pending challenge
    stamped with the current time, the rows of all other keys are as
    before, one timeout task of 60 is created, the restriction is asked
    for in a supergroup only, and the prompt is then sent; when the
    generator does not return, nothing has happened. *)
Theorem start_captcha_flow_effects :
  forall (env : Bot.Env) (c : Z) (ty : string) (user : Bot.User)
         (w : Bot.World),
    let res := Bot.run env (Bot.start_captcha_flow c ty user) w in
    match Gen.generate_captcha (Bot.fuel env) (Bot.entropy env) (Bot.rng w) with
    | Some (q, a, opts, j) =>
        res.1 = Bot.Finished /\
        Db.get_captcha c (Bot.id user) (Bot.table res.2)
        = Some (Db.mkRow c (Bot.id user) q a (Bot.now w) "pending") /\
        (forall c' u', (c', u') <> (c, Bot.id user) ->
           Db.get_captcha c' u' (Bot.table res.2)
           = Db.get_captcha c' u' (Bot.table w)) /\
        Bot.spawned res.2 = (Bot.spawned w ++ [(c, Bot.id user, 60)])%list /\
        Bot.calls (Bot.log res.2)
        = (Bot.calls (Bot.log w)
           ++ (if decide (ty = "supergroup")
               then [Bot.RestrictChatMember c (Bot.id user) Bot.restricted]
               else [])
           ++ [Bot.SendMessage c
                 (Bot.prompt_text (Bot.mention_html user) q)
                 (Some (Bot.build_captcha_keyboard c (Bot.id user) opts))])%list
    | None => res = (Bot.Diverged, w)
    end.
Proof.
  intros env c ty user w res.
  destruct (Gen.generate_captcha _ _ _) as [[[[q a] opts] j]|] eqn:Hg.
  - destruct (run_start_captcha_flow env c ty user w q a opts j Hg)
      as (H1 & H2 & _ & H4 & H5).
    fold res in H1, H2, H4, H5. split_and!; try done.
    + rewrite H2. apply get_upsert_same.
    + intros c' u' Hne. rewrite H2. by apply get_upsert_other.
  - by apply run_start_captcha_flow_diverges.
Qed.

(** X10: with a generator that returns from every state, [on_user_join]
    ends without an exception; it creates one timeout task of 60 per
    joined member that is not a bot, in the order of the message, and
    none for a bot; every such member then has a pending row; the rows
    of all other keys are as before; and there is one write per such
    member. *)
Theorem on_user_join_effects :
  forall (env : Bot.Env) (message : Bot.Message) (w : Bot.World),
    Aux.gen_total env ->
    let c := Bot.m_chat_id message in
    let res := Bot.run env (Bot.on_user_join message) w in
    res.1 = Bot.Finished /\
    Bot.spawned res.2
    = (Bot.spawned w
       ++ ((fun user => (c, Bot.id user, 60)) <$> Aux.joiners message))%list /\
    (forall user, user ∈ Aux.joiners message ->
       exists r, Db.get_captcha c (Bot.id user) (Bot.table res.2) = Some r
                 /\ Db.status r = "pending") /\
    (forall c' u',
       (forall user, user ∈ Aux.joiners message -> (c', u') <> (c, Bot.id user)) ->
       Db.get_captcha c' u' (Bot.table res.2)
       = Db.get_captcha c' u' (Bot.table w)) /\
    length (Bot.writes res.2)
    = (length (Bot.writes w) + length (Aux.joiners message))%nat.
Proof.
  intros env message w Htotal c res. subst res.
  unfold Bot.on_user_join, Aux.joiners. fold c.
  generalize (Bot.new_chat_members message). intros l. revert w.
  induction l as [|user l IH]; intros w.
  - cbn. split_and!; [done | by rewrite app_nil_r | | done | lia].
    intros user Hu. by apply elem_of_nil in Hu.
  - cbn [foldr List.filter]. destruct (Bot.is_bot user) eqn:Hbot; cbn [negb].
    { apply IH. }
    rewrite run_seq.
    destruct (Htotal (Bot.rng w)) as [[[[q a] opts] j] Hg].
    destruct (run_start_captcha_flow env c (Bot.m_chat_type message) user w
                q a opts j Hg) as (H1 & H2 & H3 & H4 & _).
    destruct (Bot.run env (Bot.start_captcha_flow c (Bot.m_chat_type message)
                             user) w) as [o w1].
    simpl in H1, H2, H3, H4. subst o.
    destruct (IH w1) as (I1 & I2 & I3 & I4 & I5).
    set (rest := List.filter (fun user0 => negb (Bot.is_bot user0)) l) in *.
    split_and!.
    + done.
    + rewrite I2, H4. cbn [fmap list_fmap]. by rewrite <- app_assoc.
    + intros user' Hin. apply elem_of_cons in Hin as [->|Hin]; [|by apply I3].
      destruct (decide (Exists (fun user0 => Bot.id user0 = Bot.id user) rest))
        as [Hex|Hnex].
      * apply Exists_exists in Hex as (user0 & Hin0 & Hid).
        rewrite <- Hid. by apply I3.
      * rewrite I4.
        -- rewrite H2. eexists. split; [apply get_upsert_same | done].
        -- intros user0 Hin0 [= Hid]. apply Hnex, Exists_exists.
           by exists user0.
    + intros c' u' Hne. rewrite I4.
      * rewrite H2. apply get_upsert_other. apply Hne. by left.
      * intros user0 Hin0. apply Hne. by right.
    + rewrite I5, H3, length_app. simpl. lia.
Qed.

Lemma on_user_join_effects_witness :
  let message :=
    Bot.mkMessage (-100) "supergroup" None
      [Bot.mkUser 7 true "@bot"; Sample.five; Bot.mkUser 6 false "@six"] in
  let res := Bot.run Sample.env_ok (Bot.on_user_join message)
               Sample.empty_world in
  Aux.gen_total Sample.env_ok /\
  res.1 = Bot.Finished /\
  Bot.spawned res.2 = [(-100, 5, 60); (-100, 6, 60)] /\
  Db.get_captcha (-100) 7 (Bot.table res.2) = None.
Proof.
  intros message res.
  destruct (on_user_join_effects Sample.env_ok message Sample.empty_world
              walking_total) as (H1 & H2 & _ & H4 & _).
  split_and!; [exact walking_total | exact H1 | |].
  { etrans; [exact H2|]. vm_compute. reflexivity. }
  etrans; [apply H4|reflexivity].
  intros user Hin. vm_compute in Hin.
  apply elem_of_cons in Hin as [->|Hin]; [discriminate|].
  apply elem_of_cons in Hin as [->|Hin]; [discriminate|].
  apply elem_of_nil in Hin. destruct Hin.
Defined.

(** X11: the life of an issued challenge.  When the generator returns
    from a source that keeps its promises, the keyboard sent holds a
    button for the correct answer; a press of any button with another
    option by the challenged user leaves the table as it is; a press of
    the correct button makes the row solved, with the question, the
    answer and the time of issue kept; and the timeout task that fires
    afterwards only sleeps: no request, no write. *)
Theorem issued_challenge_lifecycle :
  forall (env : Bot.Env) (c : Z) (ty : string) (user : Bot.User)
         (w : Bot.World) (q a : string) (opts : list string) (j : nat)
         (has_message : bool),
    Gen.entropy_ok (Bot.entropy env) ->
    Gen.generate_captcha (Bot.fuel env) (Bot.entropy env) (Bot.rng w)
    = Some (q, a, opts, j) ->
    let uid := Bot.id user in
    let press o := Bot.mkCallback (Some (Bot.callback_data c uid o)) uid
                     has_message in
    let w1 := (Bot.run env (Bot.start_captcha_flow c ty user) w).2 in
    let w2 := (Bot.run env (Bot.on_captcha_answer (press a)) w1).2 in
    (a, Bot.callback_data c uid a)
      ∈ Aux.buttons (Bot.build_captcha_keyboard c uid opts) /\
    (forall o, o <> a ->
       Bot.same_state w1 (Bot.run env (Bot.on_captcha_answer (press o)) w1).2) /\
    Db.get_captcha c uid (Bot.table w2)
    = Some (Db.mkRow c uid q a (Bot.now w) "solved") /\
    Bot.run env (Bot.kick_after_timeout c uid 60) w2
    = (Bot.Finished, Bot.do_sleep 60 w2).
Proof.
  intros env c ty user w q a opts j hm Hok Hg uid press w1 w2.
  destruct (run_start_captcha_flow env c ty user w q a opts j Hg)
    as (_ & Ht1 & _).
  fold uid w1 in Ht1.
  assert (Db.get_captcha c uid (Bot.table w1)
          = Some (Db.mkRow c uid q a (Bot.now w) "pending")) as Hrow
    by (rewrite Ht1; apply get_upsert_same).
  assert (forall o, Bot.on_captcha_answer (press o)
                    = Bot.answer_submission (press o) c uid o) as Hpress.
  { intros o.
    rewrite (on_captcha_answer_parsed (press o) (Bot.callback_data c uid o)
               c uid o eq_refl (parse_callback_data c uid o)).
    by rewrite decide_True. }
  assert (Db.get_captcha c uid (Bot.table w2)
          = Some (Db.mkRow c uid q a (Bot.now w) "solved")) as Hsolved.
  { unfold w2. rewrite Hpress.
    pose proof (run_answer_submission env (press a) c uid a w1) as Hrun.
    cbv zeta in Hrun. rewrite Hrow in Hrun. cbn [Db.status Db.answer] in Hrun.
    rewrite !decide_True in Hrun by done. destruct Hrun as [-> _].
    by rewrite get_update_status_same, Hrow. }
  split_and!.
  - unfold Aux.buttons, Bot.build_captcha_keyboard.
    destruct (adjust2_pairs
                ((fun answer => (answer, Bot.callback_data c uid answer)) <$> opts))
      as [(-> & _) _].
    apply list_elem_of_fmap. exists a. split; [done|].
    by apply (generate_correct_in_options (Bot.entropy env) (Bot.fuel env)
                (Bot.rng w) q a opts j).
  - intros o Hne. rewrite Hpress.
    pose proof (run_answer_submission env (press o) c uid o w1) as Hrun.
    cbv zeta in Hrun. rewrite Hrow in Hrun. cbn [Db.status Db.answer] in Hrun.
    rewrite decide_True, decide_False in Hrun by done. exact Hrun.
  - exact Hsolved.
  - unfold Bot.kick_after_timeout, Bot.timeout_check. cbn [Bot.run].
    change (Bot.table (Bot.do_sleep 60 w2)) with (Bot.table w2).
    rewrite Hsolved. cbn [Db.status]. by rewrite decide_False.
Qed.

Lemma issued_challenge_lifecycle_witness :
  let press o := Bot.mkCallback (Some (Bot.callback_data (-100) 5 o)) 5 true in
  let w1 := (Bot.run Sample.env_bad
               (Bot.start_captcha_flow (-100) "group" Sample.five)
               Sample.empty_world).2 in
  let w2 := (Bot.run Sample.env_bad (Bot.on_captcha_answer (press "9")) w1).2 in
  Gen.entropy_ok Sample.walking /\
  Gen.generate_captcha 10 Sample.walking 0
  = Some ("1 + 8 = ?", "9", ["9"; "13"; "16"; "6"], 6%nat) /\
  Db.get_captcha (-100) 5 (Bot.table w2)
  = Some (Db.mkRow (-100) 5 "1 + 8 = ?" "9" 1000 "solved") /\
  Bot.run Sample.env_bad (Bot.kick_after_timeout (-100) 5 60) w2
  = (Bot.Finished, Bot.do_sleep 60 w2).
Proof.
  intros press w1 w2.
  assert (Gen.generate_captcha 10 Sample.walking 0
          = Some ("1 + 8 = ?", "9", ["9"; "13"; "16"; "6"], 6%nat)) as Hg
    by (vm_compute; reflexivity).
  destruct (issued_challenge_lifecycle Sample.env_bad (-100) "group" Sample.five
              Sample.empty_world "1 + 8 = ?" "9" ["9"; "13"; "16"; "6"] 6 true
              walking_ok Hg) as (_ & _ & Hsolved & Htimeout).
  split_and!; [exact walking_ok | exact Hg | exact Hsolved | exact Htimeout].
Defined.

(** * An unanswered challenge *)

Section TimeoutFacts.
Import Bot Race.
Variable env : Env.

Lemma run_await c k w :
  run env (await c k) w =
    match platform env (length (log w)) c with
    | Returned v => run env (k v) (do_call env c w).2
    | Raised e => (Uncaught e, (do_call env c w).2)
    end.
Proof.
  unfold await. cbn [run]. unfold do_call. cbn [snd].
  by destruct (platform env (length (log w)) c).
Qed.

Lemma quiet_kick_notice c u :
  quiet (Api (GetChatMember c u) (fun m =>
           let mention :=
             match m with
             | Returned (VMember mention) => mention
             | _ => Gen.str u
             end in
           await_ (SendMessage c (kicked_text mention) None))).
Proof.
  apply quiet_api; [apply not_ban_get_member|]. intros m.
  apply quiet_await_, not_ban_send.
Qed.

(** The table that [kick_after_timeout] leaves, by the row it reads and
    the reply to the removal. *)
Lemma run_kick_after_timeout_table c u t w :
  let w' := (run env (kick_after_timeout c u t) w).2 in
  match Db.get_captcha c u (table w) with
  | Some r =>
      if decide (Db.status r = "pending") then
        match platform env (length (log w)) (BanChatMember c u) with
        | Returned _ => table w' = Db.update_status c u "kicked" (table w)
        | Raised _ => table w' = table w
        end
      else table w' = table w
  | None => table w' = table w
  end.
Proof.
  cbv zeta. unfold kick_after_timeout, timeout_check. cbn [run].
  change (table (do_sleep t w)) with (table w).
  destruct (Db.get_captcha c u (table w)) as [r|]; [|done].
  case_decide; [|done].
  rewrite run_catch, run_await.
  change (log (do_sleep t w)) with (log w).
  destruct (platform env (length (log w)) (BanChatMember c u)) as [v|e].
  - rewrite run_SetStatus.
    match goal with |- context [run env ?k ?w0] =>
      pose proof (run_quiet env k w0 (quiet_kick_notice c u)) as (Ht & _);
      destruct (run env k w0) as [o w1]
    end.
    cbn [snd table do_write do_call do_sleep Db.apply_op] in Ht.
    destruct o as [|e|]; cbn [snd]; [done| |done].
    match goal with |- context [run env ?k ?w0] =>
      assert (quiet k) as Hq
        by (apply quiet_try_await_, not_ban_send);
      pose proof (run_quiet env k w0 Hq) as (Ht' & _)
    end.
    by rewrite Ht', Ht.
  - match goal with |- context [run env ?k ?w0] =>
      assert (quiet k) as Hq
        by (apply quiet_try_await_, not_ban_send);
      pose proof (run_quiet env k w0 Hq) as (Ht' & _)
    end.
    by rewrite Ht'.
Qed.

End TimeoutFacts.

(** X12: the life of an unanswered challenge.  When the generator
    returns and the platform accepts the removal at the timeout, the
    row of the user is read back as kicked, with the question, the
    answer and the time of issue kept; a press of the correct button
    after that writes nothing: the row stays kicked. *)
Theorem unanswered_challenge_lifecycle :
  forall (env : Bot.Env) (c : Z) (ty : string) (user : Bot.User)
         (w : Bot.World) (q a : string) (opts : list string) (j : nat)
         (has_message : bool) (v : Bot.value),
    Gen.generate_captcha (Bot.fuel env) (Bot.entropy env) (Bot.rng w)
    = Some (q, a, opts, j) ->
    let uid := Bot.id user in
    let w1 := (Bot.run env (Bot.start_captcha_flow c ty user) w).2 in
    let w2 := (Bot.run env (Bot.kick_after_timeout c uid 60) w1).2 in
    let press := Bot.mkCallback (Some (Bot.callback_data c uid a)) uid
                   has_message in
    let w3 := (Bot.run env (Bot.on_captcha_answer press) w2).2 in
    Bot.platform env (length (Bot.log w1)) (Bot.BanChatMember c uid)
    = Bot.Returned v ->
    Db.get_captcha c uid (Bot.table w2)
    = Some (Db.mkRow c uid q a (Bot.now w) "kicked") /\
    Bot.table w3 = Bot.table w2 /\
    Bot.writes w3 = Bot.writes w2.
Proof.
  intros env c ty user w q a opts j hm v Hg uid w1 w2 press w3 Hban.
  destruct (run_start_captcha_flow env c ty user w q a opts j Hg)
    as (_ & Ht1 & _).
  fold uid w1 in Ht1.
  assert (Db.get_captcha c uid (Bot.table w1)
          = Some (Db.mkRow c uid q a (Bot.now w) "pending")) as Hrow
    by (rewrite Ht1; apply get_upsert_same).
  assert (Db.get_captcha c uid (Bot.table w2)
          = Some (Db.mkRow c uid q a (Bot.now w) "kicked")) as Hkicked.
  { pose proof (run_kick_after_timeout_table env c uid 60 w1) as Hrun.
    cbv zeta in Hrun. fold w2 in Hrun. rewrite Hrow in Hrun.
    cbn [Db.status] in Hrun. rewrite decide_True, Hban in Hrun by done.
    by rewrite Hrun, get_update_status_same, Hrow. }
  split; [exact Hkicked|].
  assert (Bot.on_captcha_answer press = Bot.answer_submission press c uid a)
    as Hpress.
  { rewrite (on_captcha_answer_parsed press (Bot.callback_data c uid a)
               c uid a eq_refl (parse_callback_data c uid a)).
    by rewrite decide_True. }
  pose proof (run_answer_submission env press c uid a w2) as Hrun.
  cbv zeta in Hrun. rewrite <- Hpress in Hrun. fold w3 in Hrun.
  rewrite Hkicked in Hrun. cbn [Db.status] in Hrun.
  rewrite decide_False in Hrun by done.
  destruct Hrun as (Ht & Hw & _). by split.
Qed.

Lemma unanswered_challenge_lifecycle_witness :
  let w1 := (Bot.run Sample.env_ok
               (Bot.start_captcha_flow (-100) "supergroup" Sample.five)
               Sample.empty_world).2 in
  let w2 := (Bot.run Sample.env_ok (Bot.kick_after_timeout (-100) 5 60) w1).2 in
  let press := Bot.mkCallback (Some (Bot.callback_data (-100) 5 "9")) 5 true in
  let w3 := (Bot.run Sample.env_ok (Bot.on_captcha_answer press) w2).2 in
  Bot.platform Sample.env_ok (length (Bot.log w1)) (Bot.BanChatMember (-100) 5)
  = Bot.Returned Bot.VNone /\
  Db.get_captcha (-100) 5 (Bot.table w2)
  = Some (Db.mkRow (-100) 5 "1 + 8 = ?" "9" 1000 "kicked") /\
  Bot.table w3 = Bot.table w2.
Proof.
  intros w1 w2 press w3.
  assert (Gen.generate_captcha 10 Sample.walking 0
          = Some ("1 + 8 = ?", "9", ["9"; "13"; "16"; "6"], 6%nat)) as Hg
    by (vm_compute; reflexivity).
  destruct (unanswered_challenge_lifecycle Sample.env_ok (-100) "supergroup"
              Sample.five Sample.empty_world "1 + 8 = ?" "9"
              ["9"; "13"; "16"; "6"] 6 true Bot.VNone Hg eq_refl)
    as (Hkicked & Ht & _).
  split_and!; [reflexivity | exact Hkicked | exact Ht].
Defined.

(** X13: [get_captcha] never hands out a row of another key: the row it
    returns is a row of the table stored under the chat and the user
    asked for, and it returns nothing exactly when the table holds no
    row under that key. *)
Theorem get_captcha_sound :
  forall (c u : Z) (t : Db.Table),
    (forall r, Db.get_captcha c u t = Some r ->
       r ∈ t /\ Db.chat_id r = c /\ Db.user_id r = u) /\
    (Db.get_captcha c u t = None <->
     forall r, r ∈ t -> ~ (Db.chat_id r = c /\ Db.user_id r = u)).
Proof.
  intros c u t. split.
  - intros r Hr. unfold Db.get_captcha in Hr.
    apply List.find_some in Hr as [Hin Hm].
    split; [by apply list_elem_of_In | by apply matches_true].
  - unfold Db.get_captcha. split.
    + intros Hnone r Hin Hkey.
      pose proof (List.find_none _ _ Hnone r (proj1 (list_elem_of_In _ _) Hin)) as Hf.
      apply matches_true in Hkey. congruence.
    + intros Hall. destruct (List.find (Db.matches c u) t) as [r|] eqn:E; [|done].
      apply List.find_some in E as [Hin Hm]. exfalso.
      apply (Hall r); [by apply list_elem_of_In | by apply matches_true].
Qed.
